(** * Box-ArcGIS: the GPS extractor and the webhook signature check of [main.py]

    A shallow embedding of [convert_to_degrees], [get_lat_lon] and
    [verify_signature], of their callers [get_exif_data],
    [download_and_process_file] and [handle_box_webhook], and of the parts
    of the Python runtime they call: subscripting, [float()], [str()],
    [str.encode()], HMAC-SHA256 and [hmac.compare_digest].

    Conventions.
    - A Python [str] is a Rocq [string], one character per code point, so the
      text covered is the code points 0..255.  Pillow decodes EXIF text tags
      and Starlette decodes header values as Latin-1, which is exactly this
      range; JSON text and environment values beyond it, a lone surrogate
      among them, are outside the model.
    - A Python [float] is an IEEE 754 binary64 number, given by the
      [spec_float] of the core library with [prec = 53] and [emax = 1024].
    - A call that may raise returns a [result]: [Ok v] or [Raise e]. *)

From Stdlib Require Import ZArith NArith QArith Qabs Qpower Lia Lqa.
From Stdlib Require Import String Ascii List Bool DecimalString.
From Stdlib.Strings Require Import Byte.
From Stdlib.Floats Require Import SpecFloat.
From stdpp Require Import base option list gmap strings.

#[local] Set Warnings "-register-all".
#[local] Open Scope Z_scope.

(** ** Exceptions and results *)

(** A key of an EXIF mapping: [TAGS.get(tag, tag)] is the tag's name when the
    dictionary knows it and the numeric tag otherwise. *)
Inductive tagkey :=
| KName (s : string)
| KNum (n : Z).

#[global] Instance tagkey_eq_dec : EqDecision tagkey.
Proof. solve_decision. Defined.

#[global] Instance tagkey_countable : Countable tagkey.
Proof.
  refine (inj_countable'
            (fun k => match k with KName s => inl s | KNum n => inr n end)
            (fun x => match x with inl s => KName s | inr n => KNum n end) _).
  by intros [].
Defined.

Inductive exn :=
| KeyError (k : tagkey)
| IndexError
| TypeError
| ValueError
| OverflowError
| AttributeError.

Inductive result (A : Type) :=
| Ok (a : A)
| Raise (e : exn).
Arguments Ok {A} a.
Arguments Raise {A} e.

#[global] Instance result_ret : MRet result := fun A a => Ok a.
#[global] Instance result_bind : MBind result :=
  fun A B f m => match m with Ok a => f a | Raise e => Raise e end.

(** ** binary64 arithmetic *)

Module F64.
Definition prec : Z := 53.
Definition emax : Z := 1024.

Definition zero : spec_float := S754_zero false.
Definition add : spec_float -> spec_float -> spec_float := SFadd prec emax.
Definition sub : spec_float -> spec_float -> spec_float := SFsub prec emax.
Definition div : spec_float -> spec_float -> spec_float := SFdiv prec emax.
Definition opp : spec_float -> spec_float := SFopp.

Definition is_inf (x : spec_float) : bool :=
  match x with S754_infinity _ => true | _ => false end.

(** The quotient [n / d] of two positive integers, rounded once to the
    nearest binary64 (ties to even), with sign [s]; infinite on overflow. *)
Definition of_ratio (s : bool) (n d : positive) : spec_float :=
  let '(q, e, l) := SFdiv_core_binary prec emax (Zpos n) 0 (Zpos d) 0 in
  binary_round_aux prec emax s q e l.

(** The integer [z], rounded to the nearest binary64. *)
Definition of_Z (z : Z) : spec_float := binary_normalize prec emax z 0 false.

(** The decimal [m * 10^e] with sign [s], rounded to the nearest binary64. *)
Definition of_decimal (s : bool) (m : N) (e : Z) : spec_float :=
  match m with
  | N0 => S754_zero s
  | Npos p =>
      match e with
      | Zneg k => of_ratio s p (Pos.pow 10 k)
      | Z0 => of_ratio s p 1
      | Zpos k => of_ratio s (p * Pos.pow 10 k) 1
      end
  end.
End F64.

(** The literals of [convert_to_degrees]. *)
Definition f60 : spec_float := F64.of_Z 60.
Definition f3600 : spec_float := F64.of_Z 3600.

(** ** [float()] on text

    CPython's [PyFloat_FromString]: code points above ASCII are first mapped
    (a space to [" "], anything else that is no decimal digit to ["?"]),
    underscores are accepted between two digits only, ASCII white space is
    stripped at both ends, and what is left must be, as a whole, an optional
    sign followed by [inf], [infinity], [nan] (in any case) or a decimal
    number with optional fraction and exponent. The value is rounded once;
    overflow gives an infinity, not an exception. *)

Module FloatText.
Definition ord (c : ascii) : Z := Z.of_N (N_of_ascii c).

Definition is_digit (c : ascii) : bool := (48 <=? ord c) && (ord c <=? 57).

Definition is_space (c : ascii) : bool :=
  (ord c =? 32) || ((9 <=? ord c) && (ord c <=? 13)).

Definition lower (c : ascii) : ascii :=
  if (65 <=? ord c) && (ord c <=? 90) then ascii_of_N (N_of_ascii c + 32) else c.

(** [_PyUnicode_TransformDecimalAndSpaceToASCII] on code points 0..255:
    there, the only spaces above ASCII are U+0085 and U+00A0, and no
    decimal digit lies above ASCII. The text is cut after the first ["?"]. *)
Fixpoint transform_chars (s : list ascii) : list ascii :=
  match s with
  | [] => []
  | c :: t =>
      if ord c <? 127 then c :: transform_chars t
      else if (ord c =? 133) || (ord c =? 160) then " "%char :: transform_chars t
      else ["?"%char]
  end.

Definition transform (s : list ascii) : list ascii :=
  if forallb (fun c => ord c <? 128) s then s else transform_chars s.

(** [_Py_string_to_number_with_underscores]; [prev] is the previous
    character, initially NUL. *)
Fixpoint drop_underscores (prev : ascii) (s : list ascii) : option (list ascii) :=
  match s with
  | [] => if Ascii.eqb prev "_" then None else Some []
  | c :: t =>
      if Ascii.eqb c "_" then
        if is_digit prev then drop_underscores c t else None
      else if Ascii.eqb prev "_" && negb (is_digit c) then None
      else cons c <$> drop_underscores c t
  end.

Fixpoint lstrip (s : list ascii) : list ascii :=
  match s with
  | c :: t => if is_space c then lstrip t else s
  | [] => []
  end.

Definition strip (s : list ascii) : list ascii := rev (lstrip (rev (lstrip s))).

(** [case_insensitive_match]: what follows the prefix [t], if [s] starts
    with it up to ASCII case. *)
Fixpoint match_ci (t s : list ascii) : option (list ascii) :=
  match t, s with
  | [], _ => Some s
  | a :: t', c :: s' => if Ascii.eqb (lower c) a then match_ci t' s' else None
  | _ :: _, [] => None
  end.

Definition take_sign (s : list ascii) : bool * list ascii :=
  match s with
  | c :: t =>
      if Ascii.eqb c "-" then (true, t)
      else if Ascii.eqb c "+" then (false, t)
      else (false, s)
  | [] => (false, [])
  end.

(** [_Py_parse_inf_or_nan]: the value and the unread rest. *)
Definition parse_inf_or_nan (s : list ascii) : option (spec_float * list ascii) :=
  let '(neg, r) := take_sign s in
  match match_ci (list_ascii_of_string "inf") r with
  | Some r1 =>
      match match_ci (list_ascii_of_string "inity") r1 with
      | Some r2 => Some (S754_infinity neg, r2)
      | None => Some (S754_infinity neg, r1)
      end
  | None =>
      match match_ci (list_ascii_of_string "nan") r with
      | Some r1 => Some (S754_nan, r1)
      | None => None
      end
  end.

Fixpoint take_digits (s : list ascii) : list ascii * list ascii :=
  match s with
  | c :: t =>
      if is_digit c then let '(ds, r) := take_digits t in (c :: ds, r) else ([], s)
  | [] => ([], [])
  end.

Definition digits_value (ds : list ascii) : N :=
  fold_left (fun a c => (10 * a + (N_of_ascii c - 48))%N) ds 0%N.

(** The exponent part of [_Py_dg_strtod]: an exponent without a digit is
    not read at all, and the ["e"] is left over. *)
Definition parse_exponent (s : list ascii) : Z * list ascii :=
  match s with
  | c :: t =>
      if Ascii.eqb (lower c) "e" then
        let '(neg, t1) := take_sign t in
        let '(ds, r) := take_digits t1 in
        match ds with
        | [] => (0, s)
        | _ :: _ =>
            let e := Z.of_N (digits_value ds) in
            (if neg then - e else e, r)
        end
      else (0, s)
  | [] => (0, [])
  end.

(** [_Py_dg_strtod]: sign, integer digits, optional point and fraction
    digits (one digit at least), optional exponent. *)
Definition parse_decimal (s : list ascii) : option (spec_float * list ascii) :=
  let '(neg, r0) := take_sign s in
  let '(ip, r1) := take_digits r0 in
  let '(fp, r2) :=
    match r1 with
    | c :: t => if Ascii.eqb c "." then take_digits t else ([], r1)
    | [] => ([], [])
    end in
  match ip ++ fp with
  | [] => None
  | ds =>
      let '(e, r3) := parse_exponent r2 in
      Some (F64.of_decimal neg (digits_value ds) (e - Z.of_nat (length fp)), r3)
  end.

(** [_PyOS_ascii_strtod] inside [float_from_string_inner]: the decimal
    reader first, [inf] and [nan] when it reads nothing; the whole text
    has to be read. *)
Definition parse (s : list ascii) : result spec_float :=
  match drop_underscores "000" s with
  | None => Raise ValueError
  | Some s1 =>
      let s2 := strip s1 in
      match parse_decimal s2 with
      | Some (x, []) => Ok x
      | Some (_, _ :: _) => Raise ValueError
      | None =>
          match parse_inf_or_nan s2 with
          | Some (x, []) => Ok x
          | _ => Raise ValueError
          end
      end
  end.

Definition of_str (s : string) : result spec_float :=
  parse (transform (list_ascii_of_string s)).

Definition of_bytes (b : list Byte.byte) : result spec_float :=
  parse (map ascii_of_byte b).
End FloatText.

(** ** Values of an EXIF tag mapping *)

(** What Pillow hands out as a tag value: integers, floats, rationals
    ([IFDRational], here with a positive denominator), text (ASCII tags),
    bytes (undefined-type tags), sequences of these, and a nested mapping
    for a sub-directory such as [GPSInfo]. [PSeq] stands for a tuple as well
    as for a list: the two behave alike under subscripting, [float()] and
    [!=]. *)
Inductive pyval :=
| PInt (z : Z)
| PFloat (f : spec_float)
| PRational (n : Z) (d : positive)
| PStr (s : string)
| PBytes (b : list Byte.byte)
| PSeq (l : list pyval)
| PDict (d : gmap tagkey pyval).

(** [l[i]] on a sequence: a negative index counts from the end. *)
Definition seq_index {A} (l : list A) (i : Z) : result A :=
  let j := if i <? 0 then i + Z.of_nat (length l) else i in
  if j <? 0 then Raise IndexError
  else match l !! Z.to_nat j with
       | Some x => Ok x
       | None => Raise IndexError
       end.

(** [v[k]], for a subscript [k] that is a [str] ([KName]) or an [int]
    ([KNum]). *)
Definition py_getitem (v : pyval) (k : tagkey) : result pyval :=
  match v with
  | PDict d =>
      match d !! k with
      | Some x => Ok x
      | None => Raise (KeyError k)
      end
  | PSeq l =>
      match k with
      | KNum i => seq_index l i
      | KName _ => Raise TypeError
      end
  | PStr s =>
      match k with
      | KNum i => c ← seq_index (list_ascii_of_string s) i; Ok (PStr (String c EmptyString))
      | KName _ => Raise TypeError
      end
  | PBytes b =>
      match k with
      | KNum i => c ← seq_index b i; Ok (PInt (Z.of_N (Byte.to_N c)))
      | KName _ => Raise TypeError
      end
  | PInt _ | PFloat _ | PRational _ _ => Raise TypeError
  end.

(** [float(int)]: rounded to nearest, [OverflowError] beyond the range. *)
Definition float_of_int (z : Z) : result spec_float :=
  let x := F64.of_Z z in
  if F64.is_inf x then Raise OverflowError else Ok x.

(** [float(IFDRational(n, d))] for [d > 0]: the true division [n / d] of
    the two integers. *)
Definition float_of_rational (n : Z) (d : positive) : result spec_float :=
  match n with
  | Z0 => Ok F64.zero
  | Zpos p | Zneg p =>
      let x := F64.of_ratio (n <? 0) p d in
      if F64.is_inf x then Raise OverflowError else Ok x
  end.

(** [float(v)] *)
Definition py_float (v : pyval) : result spec_float :=
  match v with
  | PInt z => float_of_int z
  | PFloat f => Ok f
  | PRational n d => float_of_rational n d
  | PStr s => FloatText.of_str s
  | PBytes b => FloatText.of_bytes b
  | PSeq _ | PDict _ => Raise TypeError
  end.

(** [v != s] for a text literal [s]: only a [str] can be equal to it. *)
Definition py_ne_str (v : pyval) (s : string) : bool :=
  match v with
  | PStr t => negb (String.eqb t s)
  | _ => true
  end.

(** ** [main.py]: the GPS extractor *)

(** [convert_to_degrees(value)], lines 73-80. *)
Definition convert_to_degrees (value : pyval) : result spec_float :=
  d ← py_getitem value (KNum 0) ≫= py_float;
  m ← py_getitem value (KNum 1) ≫= py_float;
  s ← py_getitem value (KNum 2) ≫= py_float;
  Ok (F64.add (F64.add d (F64.div m f60)) (F64.div s f3600)).

(** The pair a call of [get_lat_lon] returns: each component a float or
    [None]. *)
Definition latlon : Type := option spec_float * option spec_float.

(** [get_lat_lon(exif_data)], lines 51-71. *)
Definition get_lat_lon (exif_data : gmap tagkey pyval) : result latlon :=
  if bool_decide (is_Some (exif_data !! KName "GPSInfo")) then
    gps_info ← py_getitem (PDict exif_data) (KName "GPSInfo");
    gps_latitude ← py_getitem gps_info (KName "GPSLatitude");
    gps_latitude_ref ← py_getitem gps_info (KName "GPSLatitudeRef");
    gps_longitude ← py_getitem gps_info (KName "GPSLongitude");
    gps_longitude_ref ← py_getitem gps_info (KName "GPSLongitudeRef");
    lat ← convert_to_degrees gps_latitude;
    let lat := if py_ne_str gps_latitude_ref "N" then F64.sub F64.zero lat else lat in
    lon ← convert_to_degrees gps_longitude;
    let lon := if py_ne_str gps_longitude_ref "E" then F64.sub F64.zero lon else lon in
    Ok (Some lat, Some lon)
  else Ok (None, None).

(** ** SHA-256 and HMAC ([hashlib.sha256], [hmac.new], FIPS 180-4 and
    RFC 2104) *)

Definition bytes : Type := list Byte.byte.

Definition byte_to_Z (b : Byte.byte) : Z := Z.of_N (Byte.to_N b).

Definition byte_of_Z (z : Z) : Byte.byte :=
  byte_of_ascii (ascii_of_N (Z.to_N (z mod 256))).

Module SHA256.
(** 32-bit words are integers in [0, 2^32); [wrap] reduces into that range. *)
Definition wrap (x : Z) : Z := x mod 2 ^ 32.
Definition plus (x y : Z) : Z := wrap (x + y).
Definition rotr (n x : Z) : Z := Z.lor (Z.shiftr x n) (wrap (Z.shiftl x (32 - n))).
Definition xor3 (x y z : Z) : Z := Z.lxor (Z.lxor x y) z.

Definition Ch (x y z : Z) : Z := Z.lxor (Z.land x y) (Z.land (Z.lxor x (2 ^ 32 - 1)) z).
Definition Maj (x y z : Z) : Z := xor3 (Z.land x y) (Z.land x z) (Z.land y z).
Definition Sigma0 (x : Z) : Z := xor3 (rotr 2 x) (rotr 13 x) (rotr 22 x).
Definition Sigma1 (x : Z) : Z := xor3 (rotr 6 x) (rotr 11 x) (rotr 25 x).
Definition sigma0 (x : Z) : Z := xor3 (rotr 7 x) (rotr 18 x) (Z.shiftr x 3).
Definition sigma1 (x : Z) : Z := xor3 (rotr 17 x) (rotr 19 x) (Z.shiftr x 10).

(** The first 32 bits of the fractional parts of the cube roots of the
    first 64 primes. *)
Definition K : list Z :=
  [
   1116352408; 1899447441; 3049323471; 3921009573; 961987163; 1508970993;
   2453635748; 2870763221; 3624381080; 310598401; 607225278; 1426881987;
   1925078388; 2162078206; 2614888103; 3248222580; 3835390401; 4022224774;
   264347078; 604807628; 770255983; 1249150122; 1555081692; 1996064986;
   2554220882; 2821834349; 2952996808; 3210313671; 3336571891; 3584528711;
   113926993; 338241895; 666307205; 773529912; 1294757372; 1396182291;
   1695183700; 1986661051; 2177026350; 2456956037; 2730485921; 2820302411;
   3259730800; 3345764771; 3516065817; 3600352804; 4094571909; 275423344;
   430227734; 506948616; 659060556; 883997877; 958139571; 1322822218;
   1537002063; 1747873779; 1955562222; 2024104815; 2227730452; 2361852424;
   2428436474; 2756734187; 3204031479; 3329325298
  ].

(** The working variables [a .. h], also the shape of a hash value. *)
Record state := State { a : Z; b : Z; c : Z; d : Z; e : Z; f : Z; g : Z; h : Z }.

(** Square roots of the first 8 primes. *)
Definition initial : state :=
  State 1779033703 3144134277 1013904242 2773480762
        1359893119 2600822924 528734635 1541459225.

(** Big-endian integer of a byte sequence, and back with a given width. *)
Definition be_value (bs : bytes) : Z :=
  fold_left (fun acc x => acc * 256 + byte_to_Z x) bs 0.

Fixpoint be_bytes (width : nat) (x : Z) : bytes :=
  match width with
  | O => []
  | S w => byte_of_Z (Z.shiftr x (8 * Z.of_nat w)) :: be_bytes w x
  end.

(** Padding: a [0x80] byte, zeros up to 56 modulo 64, the bit length on
    8 bytes. *)
Definition pad (msg : bytes) : bytes :=
  let n := Z.of_nat (length msg) in
  msg ++ [byte_of_Z 128]
      ++ repeat (byte_of_Z 0) (Z.to_nat ((55 - n) mod 64))
      ++ be_bytes 8 (8 * n).

(** Cut a sequence into pieces of [size] elements. *)
Fixpoint chunks {A} (fuel size : nat) (l : list A) : list (list A) :=
  match fuel, l with
  | O, _ | _, [] => []
  | S k, _ => take size l :: chunks k size (drop size l)
  end.

(** The message schedule, most recent word first: [ws] holds
    [W(t-1), W(t-2), ...] and the next word is
    [sigma1 W(t-2) + W(t-7) + sigma0 W(t-15) + W(t-16)]. *)
Fixpoint extend (n : nat) (ws : list Z) : list Z :=
  match n with
  | O => ws
  | S k =>
      let w i := nth i ws 0 in
      extend k (plus (plus (sigma1 (w 1%nat)) (w 6%nat))
                     (plus (sigma0 (w 14%nat)) (w 15%nat)) :: ws)
  end.

Definition schedule (block : bytes) : list Z :=
  rev (extend 48 (rev (map be_value (chunks 16 4 block)))).

Definition round (s : state) (kw : Z * Z) : state :=
  let t1 := plus (plus (plus (h s) (Sigma1 (e s))) (Ch (e s) (f s) (g s)))
                 (plus (fst kw) (snd kw)) in
  let t2 := plus (Sigma0 (a s)) (Maj (a s) (b s) (c s)) in
  State (plus t1 t2) (a s) (b s) (c s) (plus (d s) t1) (e s) (f s) (g s).

Definition compress (hv : state) (block : bytes) : state :=
  let s := fold_left round (combine K (schedule block)) hv in
  State (plus (a hv) (a s)) (plus (b hv) (b s)) (plus (c hv) (c s)) (plus (d hv) (d s))
        (plus (e hv) (e s)) (plus (f hv) (f s)) (plus (g hv) (g s)) (plus (h hv) (h s)).

Definition digest (msg : bytes) : bytes :=
  let p := pad msg in
  let s := fold_left compress (chunks (length p) 64 p) initial in
  flat_map (be_bytes 4) [a s; b s; c s; d s; e s; f s; g s; h s].
End SHA256.

Module HMAC.
Definition block_size : nat := 64.

Definition xor_with (x : Z) (k : bytes) : bytes :=
  map (fun y => byte_of_Z (Z.lxor (byte_to_Z y) x)) k.

(** [hmac.new(key, msg, hashlib.sha256).digest()] *)
Definition digest (key msg : bytes) : bytes :=
  let k0 := if (block_size <? length key)%nat then SHA256.digest key else key in
  let k := k0 ++ repeat (byte_of_Z 0) (block_size - length k0) in
  SHA256.digest (xor_with 92 k ++ SHA256.digest (xor_with 54 k ++ msg)).

Definition hex_digit (n : Z) : ascii :=
  ascii_of_N (Z.to_N (if n <? 10 then 48 + n else 87 + n)).

(** [bytes.hex()]: two lower-case digits a byte. *)
Definition hex (bs : bytes) : string :=
  string_of_list_ascii
    (flat_map (fun x => [hex_digit (byte_to_Z x / 16); hex_digit (byte_to_Z x mod 16)]) bs).

(** [hmac.new(key, msg, hashlib.sha256).hexdigest()] *)
Definition hexdigest (key msg : bytes) : string := hex (digest key msg).
End HMAC.

(** ** Text to bytes and the constant-time comparison *)

(** [s.encode()]: UTF-8. A code point below 128 is one byte, one in
    128..255 two bytes. A text here has no code point above 255, so the
    encoding is total; a Python text with a lone surrogate, on which
    [encode()] raises [UnicodeEncodeError], is no text of this model. *)
Definition utf8_encode (s : string) : bytes :=
  flat_map (fun ch =>
              let n := Z.of_N (N_of_ascii ch) in
              if n <? 128 then [byte_of_Z n]
              else [byte_of_Z (192 + n / 64); byte_of_Z (128 + n mod 64)])
           (list_ascii_of_string s).

Definition is_ascii (s : string) : bool :=
  forallb (fun ch => (N_of_ascii ch <? 128)%N) (list_ascii_of_string s).

(** [hmac.compare_digest(a, b)] for a [str] [a]: [b] has to be a [str] too
    ([None] is a [TypeError]), and both have to be ASCII. The running time,
    which is all that sets it apart from [==], is not modelled. *)
Definition compare_digest (a : string) (b : option string) : result bool :=
  match b with
  | None => Raise TypeError
  | Some b' =>
      if is_ascii a && is_ascii b' then Ok (String.eqb a b') else Raise TypeError
  end.

(** ** [str()] of a decoded JSON payload *)

(** What [request.json()] returns. A [dict] keeps its items in insertion
    order, which is the order [str()] prints them in. *)
Inductive json :=
| JNull
| JBool (b : bool)
| JInt (z : Z)
| JFloat (f : spec_float)
| JStr (s : string)
| JList (l : list json)
| JDict (items : list (string * json)).

(** [repr(float)]: the shortest decimal that reads back as the same float
    (the closest to it among the shortest), printed with an exponent when
    the decimal point would be more than 16 digits right of or more than 3
    zeros left of the first digit. *)
Module FloatRepr.
Definition digits_of (n : Z) : list ascii :=
  list_ascii_of_string (NilZero.string_of_uint (N.to_uint (Z.to_N n))).

(** [x / 10^p] for [x = m * 2^e], as a fraction of two positive integers. *)
Definition scaled (m : positive) (e p : Z) : Z * Z :=
  (Zpos m * 2 ^ Z.max e 0 * 10 ^ Z.max (- p) 0, 2 ^ Z.max (- e) 0 * 10 ^ Z.max p 0).

(** The position [k] of the decimal point: [10^(k-1) <= x < 10^k]. *)
Definition decimal_point (m : positive) (e : Z) : Z :=
  let est := (Zpos (digits2_pos m) + e) * 30103 / 100000 in
  let fits k := let '(n, d) := scaled m e (k - 1) in (1 <=? n / d) && (n / d <=? 9) in
  default est (find fits [est - 1; est; est + 1; est + 2]).

Definition reads_back (m : positive) (e : Z) (d p : Z) : bool :=
  match F64.of_decimal false (Z.to_N d) p with
  | S754_finite false m' e' => Pos.eqb m m' && (e =? e')
  | _ => false
  end.

(** The [n]-digit decimals next to [x], below and above, and which of
    them reads back as [x]; when both do, the nearer one, and of two equally
    near the one whose last digit is even. *)
Definition candidate (m : positive) (e k : Z) (n : Z) : option Z :=
  let p := k - n in
  let '(num, den) := scaled m e p in
  let lo := num / den in
  let r := num mod den in
  let ok_lo := reads_back m e lo p in
  let ok_hi := reads_back m e (lo + 1) p in
  if ok_lo && ok_hi then
    Some (match 2 * r ?= den with
          | Lt => lo
          | Gt => lo + 1
          | Eq => if Z.even lo then lo else lo + 1
          end)
  else if ok_lo then Some lo
  else if ok_hi then Some (lo + 1)
  else None.

Fixpoint shortest (fuel : nat) (m : positive) (e k : Z) (n : Z) : Z * Z :=
  match candidate m e k n, fuel with
  | Some d, _ => (d, n)
  | None, S fuel' => shortest fuel' m e k (n + 1)
  | None, O => (fst (scaled m e (k - n)) / snd (scaled m e (k - n)), n)
  end.

Fixpoint drop_zeros (rev_digits : list ascii) : list ascii :=
  match rev_digits with
  | c :: t => if Ascii.eqb c "0" then drop_zeros t else rev_digits
  | [] => []
  end.

(** The digits [d1 d2 ...] and [decpt] with [x = 0.d1d2... * 10^decpt]. *)
Definition shortest_digits (m : positive) (e : Z) : list ascii * Z :=
  let k := decimal_point m e in
  let '(d, n) := shortest 16 m e k 1 in
  let ds := digits_of d in
  (rev (drop_zeros (rev ds)), k + (Z.of_nat (length ds) - n)).

Definition zeros (n : Z) : list ascii := repeat "0"%char (Z.to_nat n).

Definition exponent_text (x : Z) : list ascii :=
  (if x <? 0 then "-"%char else "+"%char)
    :: (if Z.abs x <? 10 then ["0"%char] else []) ++ digits_of (Z.abs x).

Definition layout (ds : list ascii) (decpt : Z) : list ascii :=
  let n := Z.of_nat (length ds) in
  if (decpt <=? -4) || (16 <? decpt) then
    match ds with
    | [] => []
    | c :: t =>
        c :: (match t with [] => [] | _ => "."%char :: t end)
          ++ "e"%char :: exponent_text (decpt - 1)
    end
  else if decpt <=? 0 then
    "0"%char :: "."%char :: zeros (- decpt) ++ ds
  else if n <=? decpt then
    ds ++ zeros (decpt - n) ++ list_ascii_of_string ".0"
  else
    take (Z.to_nat decpt) ds ++ "."%char :: drop (Z.to_nat decpt) ds.

Definition repr (x : spec_float) : string :=
  match x with
  | S754_nan => "nan"
  | S754_infinity s => if s then "-inf" else "inf"
  | S754_zero s => if s then "-0.0" else "0.0"
  | S754_finite s m e =>
      let '(ds, decpt) := shortest_digits m e in
      string_of_list_ascii ((if s then ["-"%char] else []) ++ layout ds decpt)
  end.
End FloatRepr.

Module StrRepr.
Definition ord (c : ascii) : Z := Z.of_N (N_of_ascii c).

(** [str.isprintable] on the code points 128..255. *)
Definition printable_high (n : Z) : bool := (161 <=? n) && negb (n =? 173).

Definition hex_escape (n : Z) : list ascii :=
  ["\"%char; "x"%char; HMAC.hex_digit (n / 16); HMAC.hex_digit (n mod 16)].

Definition escape (quote : ascii) (c : ascii) : list ascii :=
  let n := ord c in
  if Ascii.eqb c quote || Ascii.eqb c "\" then ["\"%char; c]
  else if n =? 9 then ["\"%char; "t"%char]
  else if n =? 10 then ["\"%char; "n"%char]
  else if n =? 13 then ["\"%char; "r"%char]
  else if (n <? 32) || (n =? 127) then hex_escape n
  else if n <? 127 then [c]
  else if printable_high n then [c]
  else hex_escape n.

(** [repr(str)]: single quotes, unless the text has a single quote and no
    double quote. *)
Definition repr (s : string) : string :=
  let cs := list_ascii_of_string s in
  let has q := existsb (Ascii.eqb q) cs in
  let quote := if has "'"%char && negb (has "034"%char) then "034"%char else "'"%char in
  string_of_list_ascii (quote :: flat_map (escape quote) cs ++ [quote]).
End StrRepr.

Definition join (sep : string) (l : list string) : string :=
  match l with
  | [] => EmptyString
  | x :: t => fold_left (fun acc y => acc ++ sep ++ y)%string t x
  end.

Definition int_repr (z : Z) : string := NilZero.string_of_int (Z.to_int z).

(** [repr(v)] *)
Fixpoint py_repr (v : json) : string :=
  match v with
  | JNull => "None"
  | JBool b => if b then "True" else "False"
  | JInt z => int_repr z
  | JFloat x => FloatRepr.repr x
  | JStr s => StrRepr.repr s
  | JList l => "[" ++ join ", " (map py_repr l) ++ "]"
  | JDict items =>
      "{" ++ join ", " (map (fun kv => StrRepr.repr (fst kv) ++ ": " ++ py_repr (snd kv)) items)
          ++ "}"
  end%string.

(** [str(v)]: the text itself for a [str], [repr(v)] otherwise. *)
Definition py_str (v : json) : string :=
  match v with
  | JStr s => s
  | _ => py_repr v
  end.

(** ** [main.py]: the signature check *)

(** [o.encode()] for [o = os.getenv(...)]: [None], an unset variable, has
    no such method. *)
Definition getenv_encode (o : option string) : result bytes :=
  match o with
  | None => Raise AttributeError
  | Some s => Ok (utf8_encode s)
  end.

(** [verify_signature(payload, signature)], lines 82-87. The module-level
    [BOX_WEBHOOK_SECRET] it reads is its first argument here; [signature] is
    [request.headers.get('Box-Signature')], a [str] or [None]. *)
Definition verify_signature (BOX_WEBHOOK_SECRET : option string)
    (payload : json) (signature : option string) : result bool :=
  key ← getenv_encode BOX_WEBHOOK_SECRET;
  let expected_signature := HMAC.hexdigest key (utf8_encode (py_str payload)) in
  compare_digest expected_signature signature.

(** ** Vocabulary of the statements *)

(** The expression line 80 returns, on three floats. *)
Definition decimal_degrees (degrees minutes seconds : spec_float) : spec_float :=
  F64.add (F64.add degrees (F64.div minutes f60)) (F64.div seconds f3600).

(** The specification's "hex-encoded HMAC-SHA256 digest of the serialized
    payload under the shared secret". *)
Definition correct_signature (secret : string) (payload : json) : string :=
  HMAC.hexdigest (utf8_encode secret) (utf8_encode (py_str payload)).

(** The four keys [get_lat_lon] reads, in the order it reads them. *)
Definition required_keys : list string :=
  ["GPSLatitude"; "GPSLatitudeRef"; "GPSLongitude"; "GPSLongitudeRef"]%string.

Definition missing (gps : gmap tagkey pyval) (k : string) : bool :=
  bool_decide (gps !! KName k = None).

(** The sign step of [get_lat_lon]: [0 - x] unless the reference is the
    given letter. *)
Definition hemisphere (ref : pyval) (letter : string) (x : spec_float) : spec_float :=
  if py_ne_str ref letter then F64.sub F64.zero x else x.

(** Two floats that denote the same number: equal, or zeros of either sign. *)
Definition same_number (x y : spec_float) : Prop :=
  x = y \/ (exists s t, x = S754_zero s /\ y = S754_zero t).

(** The exact value of a finite float, as a rational. *)
Definition exact_value (x : spec_float) : Q :=
  match x with
  | S754_finite s m e => inject_Z (cond_Zopp s (Zpos m)) * Qpower 2 e
  | _ => 0
  end%Q.

(** [x] and the decimal [c] agree to four places. *)
Definition agrees_4dp (x : spec_float) (c : Q) : Prop :=
  (Qabs (exact_value x - c) < 5 / 100000)%Q.



(** ** Vocabulary of rounding *)

(** Where the number [a / P] lies from the integer [m]: at it, or strictly
    between [m] and [m + 1] and then below, at or above the middle. *)
Definition located (m P a : Z) (l : location) : Prop :=
  match l with
  | loc_Exact => a = m * P
  | loc_Inexact c => m * P < a < (m + 1) * P /\ (2 * a ?= (2 * m + 1) * P) = c
  end.

(** The last step of rounding: the float with sign [s], mantissa [m] and
    exponent [e]; a zero for the mantissa 0, an infinity past the largest
    exponent of the format. *)
Definition assemble (s : bool) (m e : Z) : spec_float :=
  match m with
  | Z0 => S754_zero s
  | Zpos p => if e <=? F64.emax - F64.prec then S754_finite s p e else S754_infinity s
  | Zneg _ => S754_nan
  end.

(** A float that is a number: a zero or a finite float. *)
Definition is_finite (x : spec_float) : bool :=
  match x with
  | S754_zero _ | S754_finite _ _ _ => true
  | S754_infinity _ | S754_nan => false
  end.

(** The rounding errors of binary64: relative, half a unit in the last of
    53 binary places, and absolute, half the spacing of the subnormal
    floats. *)
Definition rel_error : Q := 1 # (2 ^ 53).
Definition abs_error : Q := 1 # (2 ^ 1075).

(** [r] is a float, and it is the number [x] up to one rounding. *)
Definition rounded (x : Q) (r : spec_float) : Prop :=
  is_finite r = true
  /\ (Qabs (exact_value r - x) <= Qabs x * rel_error + abs_error)%Q.

(** The number with sign [s] and magnitude [x]. *)
Definition signed (s : bool) (x : Q) : Q := if s then (- x)%Q else x.

(** The number a component of a GPS triple is: an [int], a [float] that is
    a number, or a rational. *)
Definition number_value (v : pyval) : option Q :=
  match v with
  | PInt z => Some (inject_Z z)
  | PFloat f => if is_finite f then Some (exact_value f) else None
  | PRational n d => Some (n # d)
  | PStr _ | PBytes _ | PSeq _ | PDict _ => None
  end.

(** The specification's "degrees + minutes/60 + seconds/3600", on exact
    numbers. *)
Definition exact_degrees (d m s : Q) : Q := (d + m / 60 + s / 3600)%Q.

(** The distance from it that the roundings of [convert_to_degrees] allow:
    [2^-50] of the three terms, and [2^-1070]. *)
Definition degrees_error (d m s : Q) : Q :=
  ((Qabs d + Qabs m / 60 + Qabs s / 3600) * (1 # 2 ^ 50) + (1 # 2 ^ 1070))%Q.

(** [r] is a float, and it is [d + m/60 + s/3600] up to those roundings. *)
Definition close_to_degrees (d m s : Q) (r : spec_float) : Prop :=
  is_finite r = true
  /\ (Qabs (exact_value r - exact_degrees d m s) <= degrees_error d m s)%Q.

(** The largest magnitude considered: far from overflow. *)
Definition magnitude_bound : Q := inject_Z (2 ^ 1000).

(** [value] is a triple of numbers [d], [m], [s], none beyond the
    magnitude considered. *)
Definition sexagesimal (value : pyval) (d m s : Q) : Prop :=
  exists vd vm vs,
    value = PSeq [vd; vm; vs]
    /\ number_value vd = Some d /\ number_value vm = Some m /\ number_value vs = Some s
    /\ (Qabs d <= magnitude_bound /\ Qabs m <= magnitude_bound /\ Qabs s <= magnitude_bound)%Q.

#[local] Open Scope string_scope.

(** ** Sample inputs *)

(** The float literals [54.36] and [8.76]. *)
Definition f54_36 : spec_float := F64.of_decimal false 5436 (-2).
Definition f8_76 : spec_float := F64.of_decimal false 876 (-2).

(** The GPS block of the specification's scenario, with given references. *)
Definition sample_gps (lat_ref lon_ref : pyval) : gmap tagkey pyval :=
  <[KName "GPSLatitude" := PSeq [PInt 40; PInt 44; PFloat f54_36]]>
    (<[KName "GPSLatitudeRef" := lat_ref]>
       (<[KName "GPSLongitude" := PSeq [PInt 73; PInt 59; PFloat f8_76]]>
          (<[KName "GPSLongitudeRef" := lon_ref]> ∅))).

Definition sample_exif (lat_ref lon_ref : pyval) : gmap tagkey pyval :=
  <[KName "GPSInfo" := PDict (sample_gps lat_ref lon_ref)]> ∅.

(** The same four entries among other GPS sub-tags and other tags. *)
Definition crowded_gps (lat_ref lon_ref : pyval) : gmap tagkey pyval :=
  <[KName "GPSAltitude" := PRational 125 10]>
    (<[KNum 31 := PInt 0]> (sample_gps lat_ref lon_ref)).

Definition crowded_exif (lat_ref lon_ref : pyval) : gmap tagkey pyval :=
  <[KName "Make" := PStr "Canon"]>
    (<[KNum 59932 := PBytes []]>
       (<[KName "GPSInfo" := PDict (crowded_gps lat_ref lon_ref)]> ∅)).

(** The same block with the longitude reference left out. *)
Definition incomplete_exif : gmap tagkey pyval :=
  <[KName "GPSInfo" :=
      PDict (delete (KName "GPSLongitudeRef") (sample_gps (PStr "N") (PStr "W")))]> ∅.

Definition empty_events : json := JDict [("events", JList [])].


(** ** [main.py]: the tags of an image *)

(** One value of the mapping [image._getexif()] returns: what [pyval] has,
    with a sub-directory given by its items, numeric sub-tag and value, in
    the order the dict holds them (their keys are distinct). *)
Inductive rawval :=
| RInt (z : Z)
| RFloat (f : spec_float)
| RRational (n : Z) (d : positive)
| RStr (s : string)
| RBytes (b : list Byte.byte)
| RSeq (l : list pyval)
| RIfd (items : list (Z * pyval)).

(** The dict a directory is: its items assigned one after the other. *)
Definition ifd_dict (items : list (Z * pyval)) : gmap tagkey pyval :=
  fold_left (fun d kv => <[KNum (fst kv) := snd kv]> d) items ∅.

(** The value as the object later code subscripts and stores. *)
Definition to_pyval (value : rawval) : pyval :=
  match value with
  | RInt z => PInt z
  | RFloat f => PFloat f
  | RRational n d => PRational n d
  | RStr s => PStr s
  | RBytes b => PBytes b
  | RSeq l => PSeq l
  | RIfd items => PDict (ifd_dict items)
  end.

(** [table.get(tag, tag)] for a tag dictionary of Pillow. *)
Definition table_get (table : gmap Z string) (tag : Z) : tagkey :=
  match table !! tag with
  | Some name => KName name
  | None => KNum tag
  end.

(** What [for gps_tag in value] walks through: the keys of a directory, the
    bytes of a [bytes], the characters of a text, the elements of a
    sequence; a number cannot be iterated. Each element is given as the
    subscript it makes, [None] for an element of a sequence that is neither
    an [int] nor a [str]: used as a subscript of that sequence it is a
    [TypeError]. *)
Definition iterate (value : rawval) : result (list (option tagkey)) :=
  match value with
  | RInt _ | RFloat _ | RRational _ _ => Raise TypeError
  | RStr s =>
      Ok (map (fun c => Some (KName (String c EmptyString))) (list_ascii_of_string s))
  | RBytes b => Ok (map (fun x => Some (KNum (Z.of_N (Byte.to_N x)))) b)
  | RSeq l =>
      Ok (map (fun e => match e with
                        | PInt i => Some (KNum i)
                        | PStr s => Some (KName s)
                        | _ => None
                        end) l)
  | RIfd items => Ok (map (fun kv => Some (KNum (fst kv))) items)
  end.

(** The image as [get_exif_data] uses it: what the call [image._getexif()]
    does. It returns [None] or a dict, given by its items in their order,
    or raises: [AttributeError] where the class of the image has no such
    method, as Pillow's GIF, BMP and TIFF images. *)
Record image := { _getexif : result (option (list (Z * rawval))) }.

(** [for x in l: s = step(s, x)], left at the first exception. *)
Fixpoint for_each {A S} (step : S -> A -> result S) (l : list A) (s : S) : result S :=
  match l with
  | [] => Ok s
  | x :: l' => s' ← step s x; for_each step l' s'
  end.

Section ExifTags.
(** [PIL.ExifTags.TAGS] and [PIL.ExifTags.GPSTAGS]. *)
Variables TAGS GPSTAGS : gmap Z string.

(** [GPSTAGS.get(gps_tag, gps_tag)]: a text is no key of the table. *)
Definition gps_tag_name (gps_tag : tagkey) : tagkey :=
  match gps_tag with
  | KNum i => table_get GPSTAGS i
  | KName s => KName s
  end.

(** Lines 44-45, the body of the inner loop. *)
Definition gps_store (value : rawval) (gps_data : gmap tagkey pyval)
    (gps_tag : option tagkey) : result (gmap tagkey pyval) :=
  match gps_tag with
  | None => Raise TypeError
  | Some k =>
      v ← py_getitem (to_pyval value) k;
      Ok (<[gps_tag_name k := v]> gps_data)
  end.

(** Lines 40-48, the body of the outer loop. *)
Definition exif_store (exif_data : gmap tagkey pyval) (item : Z * rawval) :
    result (gmap tagkey pyval) :=
  let '(tag, value) := item in
  let tag_name := table_get TAGS tag in
  if bool_decide (tag_name = KName "GPSInfo") then
    gps_tags ← iterate value;
    gps_data ← for_each (gps_store value) gps_tags ∅;
    Ok (<[tag_name := PDict gps_data]> exif_data)
  else Ok (<[tag_name := to_pyval value]> exif_data).

(** [get_exif_data(image)], lines 32-49: [if info] is false for [None] and
    for an empty dict. *)
Definition get_exif_data (image : image) : result (gmap tagkey pyval) :=
  info ← _getexif image;
  match info with
  | None | Some [] => Ok ∅
  | Some items => for_each exif_store items ∅
  end.

(** ** [main.py]: one downloaded file *)

(** What lines 95-104 leave behind: an exception ([requests], the temporary
    file or [Image.open]), or the image opened. *)
Inductive fetched :=
| FetchError
| Image (image : image).

(** The exception the [except] clause catches. *)
Inductive failure :=
| PyError (e : exn)
| ExternalError.

(** The line printed: a text, or the error line, whose text ends in the
    message of the exception. *)
Inductive printed :=
| Line (s : string)
| ErrorLine (f : failure).

(** [download_and_process_file(download_url)], lines 89-114, from the
    outcome of its download on. *)
Definition download_and_process_file (file : fetched) : printed :=
  match file with
  | FetchError => ErrorLine ExternalError
  | Image image =>
      match get_exif_data image ≫= get_lat_lon with
      | Raise e => ErrorLine (PyError e)
      | Ok (Some latitude, Some longitude) =>
          Line ("Latitude: " ++ FloatRepr.repr latitude
                ++ ", Longitude: " ++ FloatRepr.repr longitude)
      | Ok _ => Line "No latitude/longitude found"
      end
  end.
End ExifTags.

(** ** [main.py]: the webhook *)

(** [v[k]] for a decoded JSON value and a text key. *)
Definition json_getitem (v : json) (k : string) : result json :=
  match v with
  | JDict items =>
      match find (fun kv => String.eqb (fst kv) k) items with
      | Some kv => Ok (snd kv)
      | None => Raise (KeyError (KName k))
      end
  | _ => Raise TypeError
  end.

(** What [for event in v] walks through. *)
Definition json_iter (v : json) : result (list json) :=
  match v with
  | JList l => Ok l
  | JDict items => Ok (map (fun kv => JStr (fst kv)) items)
  | JStr s => Ok (map (fun c => JStr (String c EmptyString)) (list_ascii_of_string s))
  | JNull | JBool _ | JInt _ | JFloat _ => Raise TypeError
  end.

(** [v == s] for a text literal [s]. *)
Definition json_eq_str (v : json) (s : string) : bool :=
  match v with
  | JStr t => String.eqb t s
  | _ => false
  end.

(** The f-string of line 195. *)
Definition download_url (file_id : json) : string :=
  "https://api.box.com/2.0/files/" ++ py_str file_id ++ "/content".

(** Lines 193-196, the body of the loop: the URL handed to
    [download_and_process_file], if any. That call catches what it raises. *)
Definition handle_event (event : json) : result (option string) :=
  event_type ← json_getitem event "event_type";
  if json_eq_str event_type "UPLOAD" then
    source ← json_getitem event "source";
    file_id ← json_getitem source "id";
    Ok (Some (download_url file_id))
  else Ok None.

(** How a request ends: the success body, the [HTTPException] with status
    401, or an exception nothing catches. *)
Inductive outcome :=
| Done
| Unauthorized
| Crashed (e : exn).

(** The loop of lines 192-196; [urls] are the downloads made so far. *)
Fixpoint handle_events (events : list json) (urls : list string) : list string * outcome :=
  match events with
  | [] => (urls, Done)
  | event :: rest =>
      match handle_event event with
      | Raise e => (urls, Crashed e)
      | Ok None => handle_events rest urls
      | Ok (Some url) => handle_events rest (urls ++ [url])
      end
  end.

(** [handle_box_webhook(request)], lines 181-198, on the decoded body and
    the signature header: the downloads made, in order, and how the request
    ends. *)
Definition handle_box_webhook (BOX_WEBHOOK_SECRET : option string)
    (payload : json) (signature : option string) : list string * outcome :=
  match verify_signature BOX_WEBHOOK_SECRET payload signature with
  | Raise e => ([], Crashed e)
  | Ok false => ([], Unauthorized)
  | Ok true =>
      match json_getitem payload "events" ≫= json_iter with
      | Raise e => ([], Crashed e)
      | Ok events => handle_events events []
      end
  end.

(** ** More vocabulary and samples *)

(** A character of a lower-case hex digest. *)
Definition is_lower_hex (c : ascii) : bool :=
  let n := N_of_ascii c in
  ((48 <=? n) && (n <=? 57) || (97 <=? n) && (n <=? 102))%N.

(** A number among the values of an image's tags. *)
Definition is_number (value : rawval) : bool :=
  match value with
  | RInt _ | RFloat _ | RRational _ _ => true
  | _ => false
  end.

(** An image whose [_getexif()] returns [info]. *)
Definition with_exif (info : option (list (Z * rawval))) : image :=
  {| _getexif := Ok info |}.

(** What a well-formed event asks for: an event of type ["UPLOAD"] names a
    file by [event['source']['id']], and the URL of that file is fetched;
    an event of another type asks for nothing. *)
Inductive event_kind (event : json) : option string -> Prop :=
| upload_event (source file_id : json) :
    json_getitem event "event_type" = Ok (JStr "UPLOAD") ->
    json_getitem event "source" = Ok source ->
    json_getitem source "id" = Ok file_id ->
    event_kind event (Some (download_url file_id))
| other_event (event_type : json) :
    json_getitem event "event_type" = Ok event_type ->
    event_type <> JStr "UPLOAD" ->
    event_kind event None.

(** The entries of Pillow's tag dictionaries used below: tags 271 and 34853
    of the main directory, sub-tags 1 to 6 of the GPS directory. *)
Definition TAGS_excerpt : gmap Z string :=
  <[271 := "Make"]> (<[34853 := "GPSInfo"]> ∅).

Definition GPSTAGS_excerpt : gmap Z string :=
  <[1 := "GPSLatitudeRef"]>
    (<[2 := "GPSLatitude"]>
       (<[3 := "GPSLongitudeRef"]>
          (<[4 := "GPSLongitude"]>
             (<[5 := "GPSAltitudeRef"]> (<[6 := "GPSAltitude"]> ∅))))).

(** The GPS directory of the scenario as the image holds it, and one
    without its longitude. *)
Definition sample_ifd : list (Z * pyval) :=
  [(1, PStr "N"); (2, PSeq [PInt 40; PInt 44; PFloat f54_36]);
   (3, PStr "W"); (4, PSeq [PInt 73; PInt 59; PFloat f8_76])].

Definition sample_info : list (Z * rawval) :=
  [(271, RStr "Canon"); (34853, RIfd sample_ifd); (59932, RBytes [])].

Definition short_ifd : list (Z * pyval) :=
  [(1, PStr "N"); (2, PSeq [PInt 40; PInt 44; PFloat f54_36]); (3, PStr "W")].

Definition short_info : list (Z * rawval) :=
  [(271, RStr "Canon"); (34853, RIfd short_ifd)].

(** What [get_exif_data] makes of [sample_info]. *)
Definition sample_tags : gmap tagkey pyval :=
  <[KName "Make" := PStr "Canon"]>
    (<[KNum 59932 := PBytes []]> (sample_exif (PStr "N") (PStr "W"))).

(** Two events, the first with its type in lower case, the second an upload
    of file 123, and a body with them. *)
Definition lower_case_event : json :=
  JDict [("event_type", JStr "upload"); ("source", JDict [("id", JStr "77")])].

Definition upload_123 : json :=
  JDict [("event_id", JStr "e1"); ("event_type", JStr "UPLOAD");
         ("source", JDict [("type", JStr "file"); ("id", JStr "123")])].

Definition two_events : json := JDict [("events", JList [lower_case_event; upload_123])].

(** A body whose second event has no type. *)
Definition broken_events : json :=
  JDict [("events", JList [upload_123; JDict [("source", JNull)]; upload_123])].

(** The name an item of a directory gets from a tag dictionary. *)
Definition item_name {X} (table : gmap Z string) (item : Z * X) : tagkey :=
  table_get table (fst item).

(** * Properties *)

(** ** Running the model on known answers *)

Example sha256_abc :
  HMAC.hex (SHA256.digest (utf8_encode "abc"))
  = "ba7816bf8f01cfea414140de5dae2223b00361a396177a9cb410ff61f20015ad".
Proof. vm_compute. reflexivity. Qed.

(** RFC 4231, test case 2. *)
Example hmac_rfc4231_case2 :
  HMAC.hexdigest (utf8_encode "Jefe") (utf8_encode "what do ya want for nothing?")
  = "5bdcc146bf60754e6a042426089575c75a003f089d2739839dec58b964ec3843".
Proof. vm_compute. reflexivity. Qed.

Example str_of_empty_events : py_str empty_events = "{'events': []}".
Proof. vm_compute. reflexivity. Qed.

Example float_of_text_samples :
  FloatText.of_str " 1_0.5e1 " = Ok (F64.of_Z 105)
  /\ FloatText.of_str "-Infinity" = Ok (S754_infinity true)
  /\ FloatText.of_str "1e" = Raise ValueError
  /\ FloatText.of_str "" = Raise ValueError.
Proof. vm_compute. repeat split; reflexivity. Qed.

Example repr_samples :
  FloatRepr.repr f54_36 = "54.36"
  /\ FloatRepr.repr (F64.of_Z (10 ^ 16)) = "1e+16"
  /\ FloatRepr.repr (F64.of_decimal false 1 (-5)) = "1e-05"
  /\ StrRepr.repr "it's" = String "034" ("it's" ++ String "034" "").
Proof. vm_compute. repeat split; reflexivity. Qed.

(** A string of digits converts wherever a number does: the text ["123"]
    is read as 1 degree, 2 minutes, 3 seconds. *)
Example convert_to_degrees_of_text :
  convert_to_degrees (PStr "123") = Ok (S754_finite false 4657472614638988 (-52))
  /\ convert_to_degrees (PSeq [PInt 40; PInt 44]) = Raise IndexError
  /\ convert_to_degrees (PInt 40) = Raise TypeError.
Proof. vm_compute. repeat split; reflexivity. Qed.

(** ** Steps of the result monad *)

Lemma bind_ok {A B} (a : A) (k : A -> result B) : (Ok a ≫= k) = k a.
Proof. reflexivity. Qed.

Lemma getitem_dict (d : gmap tagkey pyval) (k : tagkey) (v : pyval) :
  d !! k = Some v -> py_getitem (PDict d) k = Ok v.
Proof. intros H. simpl. by rewrite H. Qed.

(** Run a chain of subscripts and conversions whose outcomes are among the
    hypotheses. *)
Ltac run_ok :=
  repeat match goal with
    | H : ?d !! ?k = Some _ |- context [py_getitem (PDict ?d) ?k] =>
        rewrite (getitem_dict d k _ H), bind_ok
    | H : ?c = Ok _ |- context [?c ≫= _] => rewrite H, bind_ok
    end.

(** ** Conversion and sign *)

Lemma convert_to_degrees_triple (d m s : pyval) (fd fm fs : spec_float) :
  py_float d = Ok fd -> py_float m = Ok fm -> py_float s = Ok fs ->
  convert_to_degrees (PSeq [d; m; s]) = Ok (decimal_degrees fd fm fs).
Proof.
  intros Hd Hm Hs. unfold convert_to_degrees, decimal_degrees.
  cbn [py_getitem]. unfold seq_index. simpl. by run_ok.
Qed.

(** [0 - x] is [-x], except that [0 - (+0.0)] is [+0.0] and not [-0.0]. *)
Lemma zero_minus (x : spec_float) :
  x <> S754_zero false -> F64.sub F64.zero x = F64.opp x.
Proof. destruct x as [[] | [] | | s m e]; intros H; try reflexivity. by destruct H. Qed.

Lemma zero_minus_same_number (x : spec_float) :
  same_number (F64.sub F64.zero x) (F64.opp x).
Proof.
  destruct x as [[] | [] | | s m e]; try (left; reflexivity).
  right. by exists false, true.
Qed.

Lemma py_ne_str_spec (v : pyval) (s : string) :
  py_ne_str v s = false <-> v = PStr s.
Proof.
  destruct v; simpl; try (split; intros; discriminate).
  rewrite negb_false_iff, String.eqb_eq. split; congruence.
Qed.

Lemma hemisphere_same (letter : string) (x : spec_float) :
  hemisphere (PStr letter) letter x = x.
Proof.
  unfold hemisphere. by rewrite (proj2 (py_ne_str_spec (PStr letter) letter) eq_refl).
Qed.

Lemma hemisphere_other (ref : pyval) (letter : string) (x : spec_float) :
  ref <> PStr letter -> hemisphere ref letter x = F64.sub F64.zero x.
Proof.
  intros H. unfold hemisphere. destruct (py_ne_str ref letter) eqn:E; [reflexivity |].
  by apply py_ne_str_spec in E.
Qed.

(** ** [get_lat_lon], by cases on the GPS entry *)

Lemma get_lat_lon_absent (exif : gmap tagkey pyval) :
  exif !! KName "GPSInfo" = None -> get_lat_lon exif = Ok (None, None).
Proof.
  intros H. unfold get_lat_lon.
  rewrite bool_decide_eq_false_2; [reflexivity |].
  rewrite H. by intros [v Hv].
Qed.

(** With the GPS entry present, the call is the chain of its four
    subscripts, two conversions and two sign steps. *)
Lemma get_lat_lon_present (exif : gmap tagkey pyval) (gps_info : pyval) :
  exif !! KName "GPSInfo" = Some gps_info ->
  get_lat_lon exif =
    (gps_latitude ← py_getitem gps_info (KName "GPSLatitude");
     gps_latitude_ref ← py_getitem gps_info (KName "GPSLatitudeRef");
     gps_longitude ← py_getitem gps_info (KName "GPSLongitude");
     gps_longitude_ref ← py_getitem gps_info (KName "GPSLongitudeRef");
     lat ← convert_to_degrees gps_latitude;
     lon ← convert_to_degrees gps_longitude;
     Ok (Some (hemisphere gps_latitude_ref "N" lat),
         Some (hemisphere gps_longitude_ref "E" lon))).
Proof.
  intros H. unfold get_lat_lon.
  rewrite bool_decide_eq_true_2 by (rewrite H; eauto).
  by run_ok.
Qed.

Section CompleteBlock.
(** A tag mapping whose GPS block has the four required keys. *)
Variables (exif gps : gmap tagkey pyval) (la lar lo lor : pyval).
Hypothesis Hgps : exif !! KName "GPSInfo" = Some (PDict gps).
Hypothesis Hla : gps !! KName "GPSLatitude" = Some la.
Hypothesis Hlar : gps !! KName "GPSLatitudeRef" = Some lar.
Hypothesis Hlo : gps !! KName "GPSLongitude" = Some lo.
Hypothesis Hlor : gps !! KName "GPSLongitudeRef" = Some lor.

Lemma get_lat_lon_complete :
  get_lat_lon exif =
    (lat ← convert_to_degrees la;
     lon ← convert_to_degrees lo;
     Ok (Some (hemisphere lar "N" lat), Some (hemisphere lor "E" lon))).
Proof. rewrite (get_lat_lon_present _ _ Hgps). by run_ok. Qed.

(** C4: with the four keys present and both conversions done, the latitude
    comes back as computed when its reference is the text ["N"] and as
    [0 - latitude], its negation, for every other reference value; likewise
    the longitude with ["E"]. The test is equality with that one text. *)
Theorem get_lat_lon_hemisphere (lat lon : spec_float) :
  convert_to_degrees la = Ok lat ->
  convert_to_degrees lo = Ok lon ->
  exists lat' lon',
    get_lat_lon exif = Ok (Some lat', Some lon')
    /\ (lar = PStr "N" -> lat' = lat)
    /\ (lar <> PStr "N" -> lat' = F64.sub F64.zero lat /\ same_number lat' (F64.opp lat))
    /\ (lor = PStr "E" -> lon' = lon)
    /\ (lor <> PStr "E" -> lon' = F64.sub F64.zero lon /\ same_number lon' (F64.opp lon)).
Proof.
  intros Hlat Hlon.
  exists (hemisphere lar "N" lat), (hemisphere lor "E" lon).
  rewrite get_lat_lon_complete. run_ok.
  split; [reflexivity |].
  split; [intros ->; apply hemisphere_same |].
  split; [intros Hne; rewrite (hemisphere_other _ _ _ Hne);
          split; [reflexivity | apply zero_minus_same_number] |].
  split; [intros ->; apply hemisphere_same |].
  intros Hne; rewrite (hemisphere_other _ _ _ Hne).
  split; [reflexivity | apply zero_minus_same_number].
Qed.
End CompleteBlock.

(** Lower case ["n"] and the empty reference both negate. *)
Lemma get_lat_lon_hemisphere_witness :
  sample_exif (PStr "n") (PStr "") !! KName "GPSInfo"
  = Some (PDict (sample_gps (PStr "n") (PStr "")))
  /\ convert_to_degrees (PSeq [PInt 40; PInt 44; PFloat f54_36])
     = Ok (S754_finite false 5734832161747859 (-47))
  /\ convert_to_degrees (PSeq [PInt 73; PInt 59; PFloat f8_76])
     = Ok (S754_finite false 5206285487355007 (-46))
  /\ exists lat' lon',
      get_lat_lon (sample_exif (PStr "n") (PStr "")) = Ok (Some lat', Some lon')
      /\ (PStr "n" = PStr "N" -> lat' = S754_finite false 5734832161747859 (-47))
      /\ (PStr "n" <> PStr "N" ->
          lat' = F64.sub F64.zero (S754_finite false 5734832161747859 (-47))
          /\ same_number lat' (F64.opp (S754_finite false 5734832161747859 (-47))))
      /\ (PStr "" = PStr "E" -> lon' = S754_finite false 5206285487355007 (-46))
      /\ (PStr "" <> PStr "E" ->
          lon' = F64.sub F64.zero (S754_finite false 5206285487355007 (-46))
          /\ same_number lon' (F64.opp (S754_finite false 5206285487355007 (-46)))).
Proof.
  split; [reflexivity |].
  split; [vm_compute; reflexivity |]. split; [vm_compute; reflexivity |].
  apply (get_lat_lon_hemisphere
           (sample_exif (PStr "n") (PStr "")) (sample_gps (PStr "n") (PStr ""))
           (PSeq [PInt 40; PInt 44; PFloat f54_36]) (PStr "n")
           (PSeq [PInt 73; PInt 59; PFloat f8_76]) (PStr ""));
    try reflexivity; vm_compute; reflexivity.
Defined.

(** ** The remaining claims on [get_lat_lon] *)

(** C6: a tag mapping without a ["GPSInfo"] key, the empty mapping among
    them, makes [get_lat_lon] return [(None, None)]; nothing is raised. *)
Theorem get_lat_lon_without_gpsinfo :
  (forall exif : gmap tagkey pyval,
      exif !! KName "GPSInfo" = None -> get_lat_lon exif = Ok (None, None))
  /\ get_lat_lon ∅ = Ok (None, None).
Proof.
  split; [exact get_lat_lon_absent |].
  apply get_lat_lon_absent, lookup_empty.
Qed.

Lemma get_lat_lon_without_gpsinfo_witness :
  (<[KName "Make" := PStr "Canon"]> ∅ : gmap tagkey pyval) !! KName "GPSInfo" = None
  /\ get_lat_lon (<[KName "Make" := PStr "Canon"]> ∅) = Ok (None, None).
Proof.
  split; [reflexivity |].
  apply (proj1 get_lat_lon_without_gpsinfo). reflexivity.
Defined.

(** C5: whatever the tag mapping, a pair returned by [get_lat_lon] has both
    coordinates or neither. *)
Theorem get_lat_lon_both_or_neither (exif : gmap tagkey pyval) (r : latlon) :
  get_lat_lon exif = Ok r ->
  r = (None, None) \/ exists lat lon, r = (Some lat, Some lon).
Proof.
  intros H. destruct (exif !! KName "GPSInfo") as [gps_info |] eqn:E.
  - right. rewrite (get_lat_lon_present _ _ E) in H.
    destruct (py_getitem gps_info (KName "GPSLatitude")) as [v1 |]; [| discriminate].
    destruct (py_getitem gps_info (KName "GPSLatitudeRef")) as [v2 |]; [| discriminate].
    destruct (py_getitem gps_info (KName "GPSLongitude")) as [v3 |]; [| discriminate].
    destruct (py_getitem gps_info (KName "GPSLongitudeRef")) as [v4 |]; [| discriminate].
    rewrite !bind_ok in H.
    destruct (convert_to_degrees v1) as [lat |]; [| discriminate].
    destruct (convert_to_degrees v3) as [lon |]; [| discriminate].
    rewrite !bind_ok in H. inversion H. eauto.
  - left. rewrite (get_lat_lon_absent _ E) in H. congruence.
Qed.

Lemma get_lat_lon_both_or_neither_witness :
  get_lat_lon (sample_exif (PStr "N") (PStr "W"))
  = Ok (Some (S754_finite false 5734832161747859 (-47)),
        Some (S754_finite true 5206285487355007 (-46)))
  /\ ((Some (S754_finite false 5734832161747859 (-47)),
       Some (S754_finite true 5206285487355007 (-46))) = (None, None)
      \/ exists lat lon,
          (Some (S754_finite false 5734832161747859 (-47)),
           Some (S754_finite true 5206285487355007 (-46))) = (Some lat, Some lon)).
Proof.
  split; [vm_compute; reflexivity |].
  apply (get_lat_lon_both_or_neither (sample_exif (PStr "N") (PStr "W"))).
  vm_compute; reflexivity.
Defined.

(** C1, as stated, fails: with the longitude reference missing from the GPS
    block, [get_lat_lon] raises [KeyError] and returns nothing. *)
Lemma get_lat_lon_incomplete_block_raises :
  incomplete_exif !! KName "GPSInfo"
  = Some (PDict (delete (KName "GPSLongitudeRef") (sample_gps (PStr "N") (PStr "W"))))
  /\ delete (KName "GPSLongitudeRef") (sample_gps (PStr "N") (PStr "W"))
       !! KName "GPSLongitudeRef" = None
  /\ get_lat_lon incomplete_exif = Raise (KeyError (KName "GPSLongitudeRef"))
  /\ get_lat_lon incomplete_exif <> Ok (None, None).
Proof.
  assert (E : get_lat_lon incomplete_exif = Raise (KeyError (KName "GPSLongitudeRef")))
    by (vm_compute; reflexivity).
  repeat split; try reflexivity; try exact E.
  rewrite E. discriminate.
Qed.

(** C1, amended: when the GPS block is present and a required key is
    missing, [get_lat_lon] raises [KeyError] for the first of the four keys,
    in the order it reads them, that is missing. *)
Theorem get_lat_lon_missing_key (exif gps : gmap tagkey pyval) (k : string) :
  exif !! KName "GPSInfo" = Some (PDict gps) ->
  In k required_keys ->
  gps !! KName k = None ->
  exists k', find (missing gps) required_keys = Some k'
             /\ gps !! KName k' = None
             /\ get_lat_lon exif = Raise (KeyError (KName k')).
Proof.
  intros He Hk Hnone. rewrite (get_lat_lon_present _ _ He).
  unfold required_keys, find, missing. cbn [py_getitem].
  destruct (gps !! KName "GPSLatitude") as [v1 |] eqn:E1; simpl;
    [| by exists "GPSLatitude"].
  destruct (gps !! KName "GPSLatitudeRef") as [v2 |] eqn:E2; simpl;
    [| by exists "GPSLatitudeRef"].
  destruct (gps !! KName "GPSLongitude") as [v3 |] eqn:E3; simpl;
    [| by exists "GPSLongitude"].
  destruct (gps !! KName "GPSLongitudeRef") as [v4 |] eqn:E4; simpl;
    [| by exists "GPSLongitudeRef"].
  exfalso. destruct Hk as [<- | [<- | [<- | [<- | []]]]]; congruence.
Qed.

Lemma get_lat_lon_missing_key_witness :
  incomplete_exif !! KName "GPSInfo"
  = Some (PDict (delete (KName "GPSLongitudeRef") (sample_gps (PStr "N") (PStr "W"))))
  /\ In "GPSLongitudeRef" required_keys
  /\ delete (KName "GPSLongitudeRef") (sample_gps (PStr "N") (PStr "W"))
       !! KName "GPSLongitudeRef" = None
  /\ exists k',
      find (missing (delete (KName "GPSLongitudeRef") (sample_gps (PStr "N") (PStr "W"))))
           required_keys = Some k'
      /\ delete (KName "GPSLongitudeRef") (sample_gps (PStr "N") (PStr "W")) !! KName k' = None
      /\ get_lat_lon incomplete_exif = Raise (KeyError (KName k')).
Proof.
  split; [reflexivity |]. split; [simpl; tauto |]. split; [reflexivity |].
  apply (get_lat_lon_missing_key incomplete_exif _ "GPSLongitudeRef");
    [reflexivity | simpl; tauto | reflexivity].
Defined.

(** C10: with the four required keys in the GPS block, the result of
    [get_lat_lon] is a function of their four values; other tags of the
    mapping and other sub-tags of the block do not enter. *)
Theorem get_lat_lon_four_values (exif1 exif2 gps1 gps2 : gmap tagkey pyval)
    (la lar lo lor : pyval) :
  exif1 !! KName "GPSInfo" = Some (PDict gps1) ->
  exif2 !! KName "GPSInfo" = Some (PDict gps2) ->
  gps1 !! KName "GPSLatitude" = Some la -> gps2 !! KName "GPSLatitude" = Some la ->
  gps1 !! KName "GPSLatitudeRef" = Some lar -> gps2 !! KName "GPSLatitudeRef" = Some lar ->
  gps1 !! KName "GPSLongitude" = Some lo -> gps2 !! KName "GPSLongitude" = Some lo ->
  gps1 !! KName "GPSLongitudeRef" = Some lor -> gps2 !! KName "GPSLongitudeRef" = Some lor ->
  get_lat_lon exif1 = get_lat_lon exif2.
Proof.
  intros He1 He2 A1 A2 B1 B2 C1 C2 D1 D2.
  rewrite (get_lat_lon_complete _ _ _ _ _ _ He1 A1 B1 C1 D1).
  rewrite (get_lat_lon_complete _ _ _ _ _ _ He2 A2 B2 C2 D2).
  reflexivity.
Qed.

Lemma get_lat_lon_four_values_witness :
  sample_exif (PStr "N") (PStr "W") !! KName "GPSInfo"
  = Some (PDict (sample_gps (PStr "N") (PStr "W")))
  /\ crowded_exif (PStr "N") (PStr "W") !! KName "GPSInfo"
     = Some (PDict (crowded_gps (PStr "N") (PStr "W")))
  /\ crowded_gps (PStr "N") (PStr "W") !! KName "GPSLatitude"
     = sample_gps (PStr "N") (PStr "W") !! KName "GPSLatitude"
  /\ crowded_gps (PStr "N") (PStr "W") !! KName "GPSAltitude" = Some (PRational 125 10)
  /\ sample_gps (PStr "N") (PStr "W") !! KName "GPSAltitude" = None
  /\ get_lat_lon (sample_exif (PStr "N") (PStr "W"))
     = get_lat_lon (crowded_exif (PStr "N") (PStr "W")).
Proof.
  repeat (split; [reflexivity |]).
  apply (get_lat_lon_four_values
           (sample_exif (PStr "N") (PStr "W")) (crowded_exif (PStr "N") (PStr "W"))
           (sample_gps (PStr "N") (PStr "W")) (crowded_gps (PStr "N") (PStr "W"))
           (PSeq [PInt 40; PInt 44; PFloat f54_36]) (PStr "N")
           (PSeq [PInt 73; PInt 59; PFloat f8_76]) (PStr "W"));
    reflexivity.
Defined.

(** ** Binary64 rounding

    [F64.add] and [F64.div] are [SFadd] and [SFdiv] of the core library,
    which states no lemma on them. This part proves from their definitions
    that the sum and the quotient of two floats, short of overflow, are the
    exact sum and quotient up to one rounding: a relative error of at most
    [2^-53], or an absolute error of at most [2^-1075] in the subnormal
    range. The same holds for [float()] of an [int] and of a rational. *)

(** *** The number of binary digits *)

Lemma digits2_pos_bounds (p : positive) :
  2 ^ (Zpos (digits2_pos p) - 1) <= Zpos p < 2 ^ Zpos (digits2_pos p).
Proof.
  induction p as [p IH | p IH |]; simpl digits2_pos.
  - rewrite Pos2Z.inj_succ, (Pos2Z.inj_xI p).
    replace (Z.succ (Zpos (digits2_pos p)) - 1) with (Z.succ (Zpos (digits2_pos p) - 1)) by lia.
    rewrite !Z.pow_succ_r by lia. lia.
  - rewrite Pos2Z.inj_succ, (Pos2Z.inj_xO p).
    replace (Z.succ (Zpos (digits2_pos p)) - 1) with (Z.succ (Zpos (digits2_pos p) - 1)) by lia.
    rewrite !Z.pow_succ_r by lia. lia.
  - simpl. lia.
Qed.

Lemma Zdigits2_nonneg (m : Z) : 0 <= m -> 0 <= Zdigits2 m.
Proof. destruct m; simpl; lia. Qed.

Lemma Zdigits2_bounds (m : Z) :
  0 < m -> 0 < Zdigits2 m /\ 2 ^ (Zdigits2 m - 1) <= m < 2 ^ Zdigits2 m.
Proof.
  destruct m as [| p | p]; try lia. intros _. simpl Zdigits2.
  split; [lia | apply digits2_pos_bounds].
Qed.

(** A number below [2^d] has at most [d] digits, one from [2^d] on has
    more. *)
Lemma Zdigits2_le (m d : Z) : 0 <= m -> 0 <= d -> m < 2 ^ d -> Zdigits2 m <= d.
Proof.
  intros Hm Hd H. destruct (Z.eq_dec m 0) as [-> | Hne]; [simpl; lia |].
  destruct (Zdigits2_bounds m) as [Hpos [Hlo _]]; [lia |].
  destruct (Z_le_gt_dec (Zdigits2 m) d) as [| Hgt]; [assumption | exfalso].
  assert (2 ^ d <= 2 ^ (Zdigits2 m - 1)) by (apply Z.pow_le_mono_r; lia). lia.
Qed.

Lemma Zdigits2_gt (m d : Z) : 0 <= d -> 2 ^ d <= m -> d < Zdigits2 m.
Proof.
  intros Hd H.
  assert (0 < 2 ^ d) by (apply Z.pow_pos_nonneg; lia).
  destruct (Zdigits2_bounds m) as [Hpos [_ Hhi]]; [lia |].
  destruct (Z_lt_le_dec d (Zdigits2 m)) as [| Hle]; [assumption | exfalso].
  assert (2 ^ Zdigits2 m <= 2 ^ d) by (apply Z.pow_le_mono_r; lia). lia.
Qed.

(** The quotient of two positive integers has at least as many digits as
    the dividend has more than the divisor. *)
Lemma Zdigits2_div (a b : Z) :
  0 <= a -> 0 < b -> Zdigits2 a - Zdigits2 b <= Zdigits2 (a / b).
Proof.
  intros Ha Hb.
  assert (Hq : 0 <= a / b) by (apply Z.div_pos; lia).
  pose proof (Zdigits2_nonneg _ Hq) as Hdq.
  destruct (Z_le_gt_dec (Zdigits2 a - Zdigits2 b) 0) as [| Hgt]; [lia |].
  destruct (Zdigits2_bounds b Hb) as [Hdb [_ Hbhi]].
  assert (Hapos : 0 < a) by (destruct a; simpl in *; lia).
  destruct (Zdigits2_bounds a Hapos) as [Hda [Halo _]].
  set (k := Zdigits2 a - Zdigits2 b - 1).
  assert (Hk : 0 <= k) by (unfold k; lia).
  enough (k < Zdigits2 (a / b)) by (unfold k in *; lia).
  apply Zdigits2_gt; [exact Hk |].
  apply Z.div_le_lower_bound; [lia |].
  assert (E : 2 ^ (Zdigits2 a - 1) = 2 ^ k * 2 ^ Zdigits2 b).
  { rewrite <- Z.pow_add_r by lia. f_equal. unfold k. lia. }
  assert (0 < 2 ^ k) by (apply Z.pow_pos_nonneg; lia).
  nia.
Qed.

(** *** Shifting a mantissa to the right *)

Ltac compare_to_order :=
  repeat match goal with
         | H : Z.compare ?x ?y = Lt |- _ => change (x < y) in H
         | H : Z.compare ?x ?y = Gt |- _ => change (x > y) in H
         | H : Z.compare _ _ = Eq |- _ => apply Z.compare_eq in H
         | |- Z.compare ?x ?y = Lt => change (x < y)
         | |- Z.compare ?x ?y = Gt => change (x > y)
         | |- Z.compare _ _ = Eq => apply Z.compare_eq_iff
         end.

Ltac located_cases H :=
  cbn [located loc_of_shr_record shr_record_of_loc shr_1 shr_m orb] in H |- *;
  match type of H with
  | _ /\ _ => destruct H as [[? ?] ?]
  | _ => idtac
  end; compare_to_order;
  repeat split; compare_to_order.

(** One step halves the mantissa and keeps the place of the number. *)
Lemma shr_1_located (mrs : shr_record) (P a : Z) :
  0 <= shr_m mrs -> 0 < P ->
  located (shr_m mrs) P a (loc_of_shr_record mrs) ->
  0 <= shr_m (shr_1 mrs)
  /\ shr_m (shr_1 mrs) = shr_m mrs / 2
  /\ located (shr_m (shr_1 mrs)) (2 * P) a (loc_of_shr_record (shr_1 mrs)).
Proof.
  destruct mrs as [m r s]. simpl shr_m. intros Hm HP H.
  destruct m as [| [p | p |] |]; try lia.
  - split; [simpl; lia |]. split; [reflexivity |].
    destruct r, s; located_cases H; lia.
  - assert (E : Zpos p~1 / 2 = Zpos p)
      by (rewrite (Pos2Z.inj_xI p); symmetry; apply (Z.div_unique _ 2 _ 1); lia).
    split; [simpl; lia |]. split; [simpl shr_m; by rewrite E |].
    destruct r, s; located_cases H; rewrite ?(Pos2Z.inj_xI p) in *; lia.
  - assert (E : Zpos p~0 / 2 = Zpos p)
      by (rewrite (Pos2Z.inj_xO p); symmetry; apply (Z.div_unique _ 2 _ 0); lia).
    split; [simpl; lia |]. split; [simpl shr_m; by rewrite E |].
    destruct r, s; located_cases H; rewrite ?(Pos2Z.inj_xO p) in *; lia.
  - split; [simpl; lia |]. split; [reflexivity |].
    destruct r, s; located_cases H; lia.
Qed.

Lemma iter_pos_invariant {A} (f : A -> A) (Inv : Z -> A -> Prop) :
  (forall k x, 0 <= k -> Inv k x -> Inv (k + 1) (f x)) ->
  forall n k x, 0 <= k -> Inv k x -> Inv (k + Zpos n) (SpecFloat.iter_pos f n x).
Proof.
  intros Hstep. induction n as [n IH | n IH |]; intros k x Hk H; simpl.
  - replace (k + Zpos n~1) with (k + 1 + Zpos n + Zpos n) by lia.
    apply IH; [lia |]. apply IH; [lia |]. by apply Hstep.
  - replace (k + Zpos n~0) with (k + Zpos n + Zpos n) by lia.
    apply IH; [lia |]. by apply IH.
  - by apply Hstep.
Qed.

(** [k] steps divide the mantissa by [2^k] and keep the place of the
    number. *)
Lemma iter_shr_1_located (mx b a : Z) (lx : location) (n : positive) :
  0 <= mx -> 0 < b -> located mx b a lx ->
  let mrs := SpecFloat.iter_pos shr_1 n (shr_record_of_loc mx lx) in
  0 <= shr_m mrs
  /\ shr_m mrs = mx / 2 ^ Zpos n
  /\ located (shr_m mrs) (2 ^ Zpos n * b) a (loc_of_shr_record mrs).
Proof.
  intros Hm Hb H.
  pose (Inv := fun (k : Z) (mrs : shr_record) =>
                 0 <= shr_m mrs
                 /\ shr_m mrs = mx / 2 ^ k
                 /\ located (shr_m mrs) (2 ^ k * b) a (loc_of_shr_record mrs)).
  change (Inv (Zpos n) (SpecFloat.iter_pos shr_1 n (shr_record_of_loc mx lx))).
  replace (Zpos n) with (0 + Zpos n) at 1 by lia.
  apply iter_pos_invariant; [| lia |].
  - intros k mrs Hk (H1 & H2 & H3).
    assert (HP : 0 < 2 ^ k * b) by (apply Z.mul_pos_pos; [apply Z.pow_pos_nonneg |]; lia).
    destruct (shr_1_located mrs _ a H1 HP H3) as (G1 & G2 & G3).
    split; [exact G1 |]. split.
    + rewrite G2, H2, Z.pow_add_r, Z.pow_1_r by lia.
      rewrite Z.div_div by (try apply Z.pow_pos_nonneg; lia). reflexivity.
    + rewrite Z.pow_add_r, Z.pow_1_r by lia.
      replace (2 ^ k * 2 * b) with (2 * (2 ^ k * b)) by lia. exact G3.
  - unfold Inv. rewrite Z.pow_0_r, Z.div_1_r, Z.mul_1_l.
    destruct lx as [| []]; cbn [shr_record_of_loc loc_of_shr_record shr_m];
      (split; [lia |]); (split; [reflexivity |]); exact H.
Qed.

(** *** Rounding to the nearest binary64 *)

Lemma fexp_binary64 (e : Z) : fexp F64.prec F64.emax e = Z.max (e - 53) (-1074).
Proof. reflexivity. Qed.

Lemma pow2_pos (k : Z) : 0 <= k -> 0 < 2 ^ k.
Proof. intros. apply Z.pow_pos_nonneg; lia. Qed.

Lemma loc_of_shr_record_of_loc (m : Z) (l : location) :
  loc_of_shr_record (shr_record_of_loc m l) = l /\ shr_m (shr_record_of_loc m l) = m.
Proof. by destruct l as [| []]. Qed.

(** The first step of rounding: the mantissa is cut at the exponent the
    format gives the number, and the place of the number is kept. *)
Lemma shr_fexp_located (mx ex b a : Z) (lx : location) :
  0 <= mx -> 0 < b -> located mx b a lx ->
  ex <= fexp F64.prec F64.emax (Zdigits2 mx + ex) ->
  exists mrs,
    shr_fexp F64.prec F64.emax mx ex lx = (mrs, fexp F64.prec F64.emax (Zdigits2 mx + ex))
    /\ 0 <= shr_m mrs
    /\ shr_m mrs = mx / 2 ^ (fexp F64.prec F64.emax (Zdigits2 mx + ex) - ex)
    /\ located (shr_m mrs) (2 ^ (fexp F64.prec F64.emax (Zdigits2 mx + ex) - ex) * b) a
         (loc_of_shr_record mrs).
Proof.
  intros Hm Hb H Hn. unfold shr_fexp, shr.
  set (e1 := fexp F64.prec F64.emax (Zdigits2 mx + ex)) in *.
  destruct (e1 - ex) as [| n | n] eqn:En; [| | lia].
  - exists (shr_record_of_loc mx lx).
    destruct (loc_of_shr_record_of_loc mx lx) as [-> ->].
    rewrite Z.pow_0_r, Z.div_1_r, Z.mul_1_l.
    split; [f_equal; lia |]. by repeat split.
  - exists (SpecFloat.iter_pos shr_1 n (shr_record_of_loc mx lx)).
    split; [f_equal; lia |]. by apply iter_shr_1_located.
Qed.

(** The mantissa next to the number. *)
Lemma round_nearest_even_located (m P a : Z) (l : location) :
  0 < P -> located m P a l ->
  let m' := round_nearest_even m l in
  m <= m' <= m + 1 /\ Z.abs (2 * (m' * P - a)) <= P.
Proof.
  intros HP H. destruct l as [| []]; cbn [located round_nearest_even] in *.
  - subst a. split; lia.
  - destruct H as [[H1 H2] H3]. compare_to_order. destruct (Z.even m); split; lia.
  - destruct H as [[H1 H2] H3]. compare_to_order. split; lia.
  - destruct H as [[H1 H2] H3]. compare_to_order. split; lia.
Qed.

Lemma located_bounds (m P a : Z) (l : location) :
  located m P a l -> m * P <= a < (m + 1) * P \/ (a = m * P /\ P <= 0).
Proof.
  destruct l; cbn [located]; [| lia].
  intros ->. destruct (Z_lt_le_dec 0 P); [left; lia | right; lia].
Qed.

(** Rounding a number given by a mantissa, an exponent and its place to
    binary64: the float next to it, at the exponent of the format or, when
    the mantissa is rounded up to a power of two, one above. *)
Lemma binary_round_aux_located (s : bool) (mx ex b a : Z) (lx : location) :
  0 <= mx -> 0 < b -> located mx b a lx ->
  ex <= fexp F64.prec F64.emax (Zdigits2 mx + ex) ->
  let e1 := fexp F64.prec F64.emax (Zdigits2 mx + ex) in
  exists m3 e3,
    binary_round_aux F64.prec F64.emax s mx ex lx = assemble s m3 e3
    /\ 0 <= m3 < 2 ^ 53
    /\ (e3 = e1 \/ e3 = e1 + 1 /\ m3 = 2 ^ 52)
    /\ Z.abs (2 * (m3 * 2 ^ (e3 - ex) * b - a)) <= 2 ^ (e1 - ex) * b
    /\ (-1074 < e1 -> 2 ^ 52 * (2 ^ (e1 - ex) * b) <= a).
Proof.
  intros Hm Hb Hloc Hn e1.
  destruct (shr_fexp_located mx ex b a lx Hm Hb Hloc Hn) as (mrs & E1 & Hm1 & Hdiv & Hloc1).
  fold e1 in E1, Hdiv, Hloc1, Hn.
  assert (He1 : e1 = Z.max (Zdigits2 mx + ex - 53) (-1074)) by apply fexp_binary64.
  set (n := e1 - ex) in *. assert (Hn0 : 0 <= n) by (unfold n; lia).
  pose proof (pow2_pos n Hn0) as Hpn.
  set (P := 2 ^ n * b) in *. assert (HP : 0 < P) by (unfold P; lia).
  pose proof (Zdigits2_nonneg mx Hm) as Hd.
  (* the cut mantissa has at most 53 digits *)
  assert (Hm1hi : shr_m mrs < 2 ^ 53).
  { rewrite Hdiv. apply Z.div_lt_upper_bound; [lia |].
    destruct (Z.eq_dec mx 0) as [-> | Hne]; [lia |].
    destruct (Zdigits2_bounds mx) as [_ [_ Hhi]]; [lia |].
    assert (2 ^ Zdigits2 mx <= 2 ^ (n + 53)) by (apply Z.pow_le_mono_r; unfold n; lia).
    rewrite Z.pow_add_r in * by lia. lia. }
  (* in the normal range it has exactly 53 *)
  assert (Hnormal : -1074 < e1 -> 2 ^ 52 * P <= a).
  { intros Hnorm.
    assert (Hdn : Zdigits2 mx = n + 53) by (unfold n; lia).
    assert (Hpos : 0 < mx) by (destruct mx; simpl in *; lia).
    destruct (Zdigits2_bounds mx Hpos) as [_ [Hlo _]].
    assert (Hlow : 2 ^ 52 <= shr_m mrs).
    { rewrite Hdiv. apply Z.div_le_lower_bound; [lia |].
      replace (Zdigits2 mx - 1) with (n + 52) in Hlo by lia.
      rewrite Z.pow_add_r in Hlo by lia. lia. }
    destruct (located_bounds _ _ _ _ Hloc1) as [[Hlb _] | [_ ?]]; [| lia].
    nia. }
  destruct (round_nearest_even_located _ _ _ _ HP Hloc1) as [Hr Herr].
  set (m2 := round_nearest_even (shr_m mrs) (loc_of_shr_record mrs)) in *.
  unfold binary_round_aux. rewrite E1. fold m2.
  destruct (Z.eq_dec m2 (2 ^ 53)) as [Etop | Hlt].
  - (* rounded up to [2^53]: one more step *)
    exists (2 ^ 52), (e1 + 1).
    rewrite Etop. unfold shr_fexp. rewrite fexp_binary64.
    replace (Z.max (Zdigits2 (2 ^ 53) + e1 - 53) (-1074) - e1) with 1
      by (change (Zdigits2 (2 ^ 53)) with 54; lia).
    split; [reflexivity |]. split; [lia |]. split; [right; by split |].
    split; [| exact Hnormal].
    rewrite Etop in Herr.
    replace (e1 + 1 - ex) with (n + 1) by (unfold n; lia).
    rewrite Z.pow_add_r, Z.pow_1_r by lia.
    replace (2 ^ 52 * (2 ^ n * 2) * b) with (2 ^ 53 * P) by (unfold P; lia).
    exact Herr.
  - (* no further step *)
    exists m2, e1.
    assert (Hm2 : 0 <= m2 < 2 ^ 53) by lia.
    assert (Hd2 : Zdigits2 m2 <= 53) by (apply Zdigits2_le; lia).
    unfold shr_fexp, shr. rewrite fexp_binary64.
    destruct (Z.max (Zdigits2 m2 + e1 - 53) (-1074) - e1) as [| p | p] eqn:En2; [| lia |].
    + split; [reflexivity |]. split; [exact Hm2 |]. split; [by left |].
      split; [| exact Hnormal]. fold n. fold P.
      replace (m2 * 2 ^ n * b) with (m2 * P) by (unfold P; lia). exact Herr.
    + split; [reflexivity |]. split; [exact Hm2 |]. split; [by left |].
      split; [| exact Hnormal]. fold n.
      replace (m2 * 2 ^ n * b) with (m2 * P) by (unfold P; lia). exact Herr.
Qed.

(** *** From integers to rationals *)

Lemma Qpower2_pos (e : Z) : (0 < 2 ^ e)%Q.
Proof. by apply Qpower_0_lt. Qed.

Lemma Qpower2_add (e k : Z) : (2 ^ (e + k) == 2 ^ e * 2 ^ k)%Q.
Proof. by apply Qpower_plus. Qed.

Lemma Qpower2_inject (k : Z) : 0 <= k -> (2 ^ k == inject_Z (2 ^ k))%Q.
Proof. intros Hk. symmetry. by apply (Zpower_Qpower 2 k). Qed.

Lemma Qpower2_shift (e k : Z) : 0 <= k -> (2 ^ (e + k) == 2 ^ e * inject_Z (2 ^ k))%Q.
Proof. intros Hk. by rewrite Qpower2_add, (Qpower2_inject k). Qed.

Lemma Qpower2_le (e1 e2 : Z) : e1 <= e2 -> (2 ^ e1 <= 2 ^ e2)%Q.
Proof. intros H. apply Qpower_le_compat_l; [exact H | done]. Qed.

Lemma exact_value_assemble (s : bool) (m e : Z) :
  0 <= m -> e <= 971 ->
  is_finite (assemble s m e) = true
  /\ (exact_value (assemble s m e) == signed s (inject_Z m * 2 ^ e))%Q.
Proof.
  intros Hm He. destruct m as [| p | p]; [| | lia]; unfold assemble.
  - split; [reflexivity |]. destruct s; simpl; ring.
  - change (F64.emax - F64.prec) with 971. rewrite (Zle_imp_le_bool _ _ He).
    split; [reflexivity |]. destruct s; cbn [exact_value signed cond_Zopp].
    + rewrite inject_Z_opp. ring.
    + reflexivity.
Qed.

Lemma Qscale_nonneg (d B T : Q) : (0 < B -> 0 < T -> 0 <= d -> 0 <= d * (T / B))%Q.
Proof.
  intros HB HT Hd. apply Qmult_le_0_compat; [exact Hd |].
  apply Qlt_le_weak, Qlt_shift_div_l; [exact HB | lra].
Qed.

(** A lower bound on [a] in units of [b] is one on [a / b]. *)
Lemma Qdiv_scale_lower (A B K T : Q) :
  (0 < B -> 0 < T -> K * B <= A -> K * T <= A / B * T)%Q.
Proof.
  intros HB HT H.
  assert (E : (A / B * T - K * T == (A - K * B) * (T / B))%Q) by (field; lra).
  pose proof (Qscale_nonneg (A - K * B) B T HB HT) as Hn.
  assert (0 <= A - K * B)%Q by lra. specialize (Hn H0). lra.
Qed.

(** An error bound in units of [b] is one on [a / b]. *)
Lemma Qdiv_scale_error (A B M K T : Q) :
  (0 < B -> 0 < T ->
   - (K * B) <= 2 * (M * B - A) -> 2 * (M * B - A) <= K * B ->
   Qabs (M * T - A / B * T) <= (1 # 2) * (K * T))%Q.
Proof.
  intros HB HT Hlo Hhi. apply Qabs_Qle_condition.
  assert (E1 : ((1 # 2) * (K * T) - (M * T - A / B * T)
                == (1 # 2) * ((K * B - 2 * (M * B - A)) * (T / B)))%Q) by (field; lra).
  assert (E2 : (M * T - A / B * T + (1 # 2) * (K * T)
                == (1 # 2) * ((2 * (M * B - A) + K * B) * (T / B)))%Q) by (field; lra).
  pose proof (Qscale_nonneg (K * B - 2 * (M * B - A)) B T HB HT) as H1.
  pose proof (Qscale_nonneg (2 * (M * B - A) + K * B) B T HB HT) as H2.
  assert (0 <= K * B - 2 * (M * B - A))%Q by lra.
  assert (0 <= 2 * (M * B - A) + K * B)%Q by lra.
  specialize (H1 H). specialize (H2 H0).
  set (u := ((K * B - 2 * (M * B - A)) * (T / B))%Q) in *.
  set (v := ((2 * (M * B - A) + K * B) * (T / B))%Q) in *.
  split; lra.
Qed.

Lemma Qabs_signed (s : bool) (x : Q) : (Qabs (signed s x) == Qabs x)%Q.
Proof. destruct s; [apply Qabs_opp | reflexivity]. Qed.

Lemma signed_minus (s : bool) (x y : Q) : (signed s x - signed s y == signed s (x - y))%Q.
Proof. destruct s; simpl; ring. Qed.

Lemma signed_wd (s : bool) (x y : Q) : (x == y)%Q -> (signed s x == signed s y)%Q.
Proof. intros E. destruct s; simpl; by rewrite E. Qed.

Lemma inject_Z_minus (x y : Z) : inject_Z (x - y) = (inject_Z x - inject_Z y)%Q.
Proof. unfold Z.sub, Qminus. by rewrite inject_Z_plus, inject_Z_opp. Qed.

Ltac push_inject H :=
  repeat first [ rewrite inject_Z_plus in H | rewrite inject_Z_minus in H
               | rewrite inject_Z_opp in H | rewrite inject_Z_mult in H ].

Lemma inject_Z_pos (z : Z) : 0 < z -> (0 < inject_Z z)%Q.
Proof. intros H. change 0%Q with (inject_Z 0). by rewrite <- Zlt_Qlt. Qed.

Lemma inject_Z_nonneg (z : Z) : 0 <= z -> (0 <= inject_Z z)%Q.
Proof. intros H. change 0%Q with (inject_Z 0). by rewrite <- Zle_Qle. Qed.

(** Rounding to binary64 a number below [2^1023], given by a mantissa, an
    exponent and its place: the result is a float, the number up to one
    rounding. *)
Lemma binary_round_aux_rounded (s : bool) (mx ex b a : Z) (lx : location) :
  0 <= mx -> 0 < b -> located mx b a lx ->
  ex <= fexp F64.prec F64.emax (Zdigits2 mx + ex) ->
  (inject_Z a / inject_Z b * 2 ^ ex < 2 ^ 1023)%Q ->
  rounded (signed s (inject_Z a / inject_Z b * 2 ^ ex))
    (binary_round_aux F64.prec F64.emax s mx ex lx).
Proof.
  intros Hm Hb Hloc Hn Hbound.
  destruct (binary_round_aux_located s mx ex b a lx Hm Hb Hloc Hn)
    as (m3 & e3 & E & Hm3 & He3 & Herr & Hnorm).
  rewrite E. clear E.
  set (e1 := fexp F64.prec F64.emax (Zdigits2 mx + ex)) in *.
  assert (He1 : -1074 <= e1) by (unfold e1; rewrite fexp_binary64; lia).
  assert (Ha : 0 <= a).
  { destruct (located_bounds _ _ _ _ Hloc) as [[? _] | [_ ?]]; [nia | lia]. }
  set (A := inject_Z a) in *. set (B := inject_Z b) in *. set (T := (2 ^ ex)%Q) in *.
  set (K := inject_Z (2 ^ (e1 - ex))).
  assert (HA : (0 <= A)%Q) by by apply inject_Z_nonneg.
  assert (HB : (0 < B)%Q) by by apply inject_Z_pos.
  assert (HT : (0 < T)%Q) by apply Qpower2_pos.
  assert (HKT : (K * T == 2 ^ e1)%Q).
  { transitivity (2 ^ (ex + (e1 - ex)))%Q.
    - rewrite Qpower2_shift by lia. unfold K, T. ring.
    - replace (ex + (e1 - ex)) with e1 by lia. reflexivity. }
  assert (HX : (0 <= A / B * T)%Q).
  { pose proof (Qdiv_scale_lower A B 0 T HB HT) as H. lra. }
  assert (HnormQ : -1074 < e1 -> (inject_Z (2 ^ 52) * 2 ^ e1 <= A / B * T)%Q).
  { intros H. specialize (Hnorm H). rewrite Zle_Qle in Hnorm. push_inject Hnorm.
    fold K A B in Hnorm. rewrite <- HKT, Qmult_assoc.
    apply Qdiv_scale_lower; [exact HB | exact HT |]. lra. }
  assert (He3' : e3 <= 971).
  { destruct (Z_le_gt_dec e3 971) as [| Hgt]; [assumption | exfalso].
    assert (H971 : 971 <= e1) by lia.
    pose proof (HnormQ ltac:(lia)) as H. pose proof (Qpower2_le 971 e1 H971) as Hp.
    assert (Ec : (inject_Z (2 ^ 52) * 2 ^ 971 == 2 ^ 1023)%Q) by by vm_compute.
    assert (inject_Z (2 ^ 52) * 2 ^ 971 <= inject_Z (2 ^ 52) * 2 ^ e1)%Q
      by (apply Qmult_le_l; [by vm_compute | exact Hp]).
    rewrite Ec in H0. apply (Qlt_irrefl (2 ^ 1023)).
    eapply Qle_lt_trans; [| exact Hbound]. by eapply Qle_trans. }
  destruct (exact_value_assemble s m3 e3) as [Hfin Hval]; [lia | exact He3' |].
  split; [exact Hfin |].
  rewrite Hval, signed_minus, !Qabs_signed, (Qabs_pos _ HX).
  assert (Hk3 : 0 <= e3 - ex) by lia.
  assert (E3 : (2 ^ e3 == T * inject_Z (2 ^ (e3 - ex)))%Q).
  { unfold T. rewrite <- Qpower2_shift by exact Hk3.
    replace (ex + (e3 - ex)) with e3 by lia. reflexivity. }
  rewrite E3.
  set (M := (inject_Z m3 * inject_Z (2 ^ (e3 - ex)))%Q).
  assert (Hhalf : (Qabs (M * T - A / B * T) <= (1 # 2) * 2 ^ e1)%Q).
  { rewrite <- HKT. apply Qdiv_scale_error; [exact HB | exact HT | |].
    - assert (H : - (2 ^ (e1 - ex) * b) <= 2 * (m3 * 2 ^ (e3 - ex) * b - a)) by lia.
      rewrite Zle_Qle in H. push_inject H. exact H.
    - assert (H : 2 * (m3 * 2 ^ (e3 - ex) * b - a) <= 2 ^ (e1 - ex) * b) by lia.
      rewrite Zle_Qle in H. push_inject H. exact H. }
  assert (EM : (inject_Z m3 * (T * inject_Z (2 ^ (e3 - ex))) == M * T)%Q)
    by (unfold M; ring).
  rewrite EM. eapply Qle_trans; [exact Hhalf |].
  destruct (Z.eq_dec e1 (-1074)) as [Esub | Hne].
  - rewrite Esub.
    assert (Ec : ((1 # 2) * 2 ^ (-1074) == abs_error)%Q) by by vm_compute.
    rewrite Ec. assert (0 <= A / B * T * rel_error)%Q; [| lra].
    apply Qmult_le_0_compat; [exact HX | by vm_compute].
  - pose proof (HnormQ ltac:(lia)) as H.
    assert (Hrel : ((1 # 2) * 2 ^ e1 <= A / B * T * rel_error)%Q).
    { set (X := (A / B * T)%Q) in *. set (p := (2 ^ e1)%Q) in *.
      unfold rel_error. change (inject_Z (2 ^ 52)) with (4503599627370496 # 1)%Q in H.
      change (2 ^ 53)%positive with 9007199254740992%positive. lra. }
    assert (0 <= abs_error)%Q by by vm_compute. lra.
Qed.

(** *** The operations: rounding an integer mantissa *)

Lemma rounded_wd (x y : Q) (r : spec_float) : (x == y)%Q -> rounded x r -> rounded y r.
Proof. intros E [Hfin H]. split; [exact Hfin |]. by rewrite <- E. Qed.

(** A float is itself up to rounding. *)
Lemma rounded_exact (r : spec_float) : is_finite r = true -> rounded (exact_value r) r.
Proof.
  intros Hfin. split; [exact Hfin |].
  assert (E : (exact_value r - exact_value r == 0)%Q) by ring. rewrite E.
  change (Qabs 0) with 0%Q.
  assert (0 <= Qabs (exact_value r) * rel_error)%Q
    by (apply Qmult_le_0_compat; [apply Qabs_nonneg | by vm_compute]).
  assert (0 <= abs_error)%Q by by vm_compute. lra.
Qed.

Lemma Zdigits2_unique (m d : Z) : 0 < d -> 2 ^ (d - 1) <= m < 2 ^ d -> Zdigits2 m = d.
Proof.
  intros Hd [Hlo Hhi].
  assert (0 < 2 ^ (d - 1)) by (apply pow2_pos; lia).
  pose proof (Zdigits2_le m d ltac:(lia) ltac:(lia) Hhi).
  pose proof (Zdigits2_gt m (d - 1) ltac:(lia) Hlo). lia.
Qed.

Lemma Zdigits2_shift (m : positive) (k : Z) :
  0 <= k -> Zdigits2 (Zpos m * 2 ^ k) = Zdigits2 (Zpos m) + k.
Proof.
  intros Hk. destruct (Zdigits2_bounds (Zpos m)) as [Hd [Hlo Hhi]]; [lia |].
  pose proof (pow2_pos k Hk).
  apply Zdigits2_unique; [lia |].
  replace (Zdigits2 (Zpos m) + k - 1) with (Zdigits2 (Zpos m) - 1 + k) by lia.
  rewrite !Z.pow_add_r by lia. nia.
Qed.

Lemma iter_xO (m d : positive) : Zpos (Pos.iter xO m d) = Zpos m * 2 ^ Zpos d.
Proof.
  induction d as [| d IH] using Pos.peano_ind.
  - simpl. lia.
  - rewrite Pos.iter_succ, Pos2Z.inj_succ, Z.pow_succ_r by lia.
    rewrite (Pos2Z.inj_xO (Pos.iter xO m d)), IH. lia.
Qed.

(** Aligning a mantissa to a smaller exponent keeps the number. *)
Lemma shl_align_spec (mx : positive) (ex ex' : Z) :
  let '(mz, ez) := shl_align mx ex ex' in
  ez = Z.min ex ex' /\ Zpos mz = Zpos mx * 2 ^ (ex - ez).
Proof.
  unfold shl_align. destruct (ex' - ex) as [| d | d] eqn:E.
  - split; [lia |]. rewrite Z.sub_diag. simpl. lia.
  - split; [lia |]. rewrite Z.sub_diag. simpl. lia.
  - split; [lia |]. rewrite iter_xO. f_equal. f_equal. lia.
Qed.

Lemma binary_round_rounded (s : bool) (m : positive) (e : Z) :
  (inject_Z (Zpos m) * 2 ^ e < 2 ^ 1023)%Q ->
  rounded (signed s (inject_Z (Zpos m) * 2 ^ e)) (binary_round F64.prec F64.emax s m e).
Proof.
  intros Hbound. unfold binary_round.
  pose proof (shl_align_spec m e (fexp F64.prec F64.emax (Zpos (digits2_pos m) + e))) as Hal.
  destruct (shl_align m e (fexp F64.prec F64.emax (Zpos (digits2_pos m) + e)))
    as [mz ez]. destruct Hal as [Hez Hmz].
  assert (Hk : 0 <= e - ez) by lia.
  assert (Eval : (inject_Z (Zpos mz) / inject_Z 1 * 2 ^ ez == inject_Z (Zpos m) * 2 ^ e)%Q).
  { rewrite Hmz, inject_Z_mult.
    transitivity (inject_Z (Zpos m) * 2 ^ (ez + (e - ez)))%Q.
    - rewrite Qpower2_shift by exact Hk. field.
    - replace (ez + (e - ez)) with e by lia. reflexivity. }
  apply (rounded_wd (signed s (inject_Z (Zpos mz) / inject_Z 1 * 2 ^ ez))).
  { by apply signed_wd. }
  apply binary_round_aux_rounded; [lia | lia | cbn [located]; lia | | by rewrite Eval].
  change (Zpos (digits2_pos m)) with (Zdigits2 (Zpos m)) in Hez.
  rewrite Hmz, Zdigits2_shift by exact Hk.
  replace (Zdigits2 (Zpos m) + (e - ez) + ez) with (Zdigits2 (Zpos m) + e) by lia. lia.
Qed.

Lemma binary_normalize_rounded (z e : Z) :
  (Qabs (inject_Z z * 2 ^ e) < 2 ^ 1023)%Q ->
  rounded (inject_Z z * 2 ^ e) (binary_normalize F64.prec F64.emax z e false).
Proof.
  intros Hbound. destruct z as [| m | m]; cbn [binary_normalize].
  - apply (rounded_wd (exact_value (S754_zero false))); [simpl; ring |].
    by apply rounded_exact.
  - apply (binary_round_rounded false). rewrite Qabs_pos in Hbound; [exact Hbound |].
    apply Qmult_le_0_compat; [by apply inject_Z_nonneg | apply Qlt_le_weak, Qpower2_pos].
  - assert (E : (inject_Z (Zneg m) * 2 ^ e == signed true (inject_Z (Zpos m) * 2 ^ e))%Q).
    { rewrite <- Pos2Z.opp_pos, inject_Z_opp. simpl. ring. }
    apply (rounded_wd _ _ _ (symmetry E)). apply binary_round_rounded.
    rewrite E, Qabs_signed, Qabs_pos in Hbound; [exact Hbound |].
    apply Qmult_le_0_compat; [by apply inject_Z_nonneg | apply Qlt_le_weak, Qpower2_pos].
Qed.

(** *** The operations: addition *)

Lemma exact_value_finite (s : bool) (m : positive) (e : Z) :
  (exact_value (S754_finite s m e) == signed s (inject_Z (Zpos m) * 2 ^ e))%Q.
Proof. destruct s; cbn [exact_value signed cond_Zopp]; [rewrite inject_Z_opp; ring | reflexivity]. Qed.

Lemma exact_value_zero (s : bool) : exact_value (S754_zero s) = 0%Q.
Proof. reflexivity. Qed.

Lemma inject_cond_Zopp (s : bool) (z : Z) : (inject_Z (cond_Zopp s z) == signed s (inject_Z z))%Q.
Proof. destruct s; cbn [cond_Zopp signed]; [by rewrite inject_Z_opp | reflexivity]. Qed.

Lemma signed_mult_l (s : bool) (x y : Q) : (signed s x * y == signed s (x * y))%Q.
Proof. destruct s; simpl; ring. Qed.

(** The mantissa of a float brought to a smaller exponent. *)
Lemma aligned_value (s : bool) (m : positive) (e ez : Z) :
  ez <= e ->
  (inject_Z (cond_Zopp s (Zpos (fst (shl_align m e ez)))) * 2 ^ ez
   == exact_value (S754_finite s m e))%Q.
Proof.
  intros Hle. pose proof (shl_align_spec m e ez) as H.
  destruct (shl_align m e ez) as [mz ez']. destruct H as [Hez Hmz]. cbn [fst].
  assert (ez' = ez) as -> by lia.
  rewrite exact_value_finite, inject_cond_Zopp, signed_mult_l. apply signed_wd.
  rewrite Hmz, inject_Z_mult.
  transitivity (inject_Z (Zpos m) * 2 ^ (ez + (e - ez)))%Q.
  - rewrite Qpower2_shift by lia. ring.
  - replace (ez + (e - ez)) with e by lia. reflexivity.
Qed.

(** The sum of two floats that does not overflow is their sum up to one
    rounding. *)
Lemma add_rounded (x y : spec_float) :
  is_finite x = true -> is_finite y = true ->
  (Qabs (exact_value x + exact_value y) < 2 ^ 1023)%Q ->
  rounded (exact_value x + exact_value y) (F64.add x y).
Proof.
  intros Hx Hy Hbound.
  destruct x as [sx | sx | | sx mx ex]; try discriminate Hx;
    destruct y as [sy | sy | | sy my ey]; try discriminate Hy.
  - apply (rounded_wd 0); [simpl; ring |].
    assert (E : exists s, F64.add (S754_zero sx) (S754_zero sy) = S754_zero s)
      by (destruct sx, sy; eexists; reflexivity).
    destruct E as [s ->]. by apply (rounded_exact (S754_zero s)).
  - apply (rounded_wd (exact_value (S754_finite sy my ey))); [rewrite exact_value_zero; ring |].
    by apply rounded_exact.
  - apply (rounded_wd (exact_value (S754_finite sx mx ex))); [rewrite exact_value_zero; ring |].
    by apply rounded_exact.
  - unfold F64.add, SFadd.
    set (ez := Z.min ex ey).
    set (z := cond_Zopp sx (Zpos (fst (shl_align mx ex ez)))
              + cond_Zopp sy (Zpos (fst (shl_align my ey ez)))).
    assert (E : (inject_Z z * 2 ^ ez
                 == exact_value (S754_finite sx mx ex) + exact_value (S754_finite sy my ey))%Q).
    { unfold z. rewrite inject_Z_plus, Qmult_plus_distr_l.
      rewrite !aligned_value by (unfold ez; lia). reflexivity. }
    apply (rounded_wd _ _ _ E). apply binary_normalize_rounded. by rewrite E.
Qed.

(** *** The operations: division *)

(** The place of a quotient, from the remainder. *)
Lemma new_location_located (m' my q r : Z) :
  0 < my -> m' = my * q + r -> 0 <= r < my ->
  located q my m' (new_location my r).
Proof.
  intros Hmy -> Hr. unfold new_location, new_location_even, new_location_odd.
  destruct (Z.even my) eqn:Ev; destruct (Z.eqb_spec r 0) as [-> | Hr0]; cbn [located];
    try lia.
  - split; [lia |].
    destruct (Z.compare_spec (2 * r) my); compare_to_order; lia.
  - split; [lia |].
    assert (Hodd : Z.odd my = true) by (by rewrite <- Z.negb_even, Ev).
    apply Z.odd_spec in Hodd as [k Hk].
    destruct (Z.compare_spec (2 * r + 1) my); compare_to_order; lia.
Qed.

Lemma fexp_monotone (e e' : Z) :
  e <= e' -> fexp F64.prec F64.emax e <= fexp F64.prec F64.emax e'.
Proof. intros H. rewrite !fexp_binary64. lia. Qed.

(** The quotient of two mantissas, as [SFdiv] and [float(IFDRational)]
    compute it: with enough digits for one rounding. *)
Lemma SFdiv_core_binary_spec (mx my : positive) (ex ey : Z) :
  exists q e' l k,
    SFdiv_core_binary F64.prec F64.emax (Zpos mx) ex (Zpos my) ey = (q, e', l)
    /\ 0 <= q /\ 0 <= k /\ ex - ey = e' + k
    /\ located q (Zpos my) (Zpos mx * 2 ^ k) l
    /\ e' <= fexp F64.prec F64.emax (Zdigits2 q + e').
Proof.
  unfold SFdiv_core_binary.
  set (d1 := Zdigits2 (Zpos mx)). set (d2 := Zdigits2 (Zpos my)).
  set (e' := Z.min (fexp F64.prec F64.emax (d1 + ex - (d2 + ey))) (ex - ey)).
  set (k := ex - ey - e'). assert (Hk : 0 <= k) by (unfold k, e'; lia).
  set (m' := match k with Zpos _ => Z.shiftl (Zpos mx) k | Z0 => Zpos mx | Zneg _ => 0 end).
  assert (Hm' : m' = Zpos mx * 2 ^ k).
  { unfold m'. destruct k as [| p | p]; [simpl; lia | | lia].
    by rewrite Z.shiftl_mul_pow2 by lia. }
  pose proof (Z_div_mod m' (Zpos my) ltac:(lia)) as Hdm.
  destruct (Z.div_eucl m' (Zpos my)) as [q r] eqn:Ediv. destruct Hdm as [Hq Hr].
  assert (Hqdiv : q = m' / Zpos my).
  { unfold Z.div. by rewrite Ediv. }
  assert (Hm'pos : 0 < m') by (rewrite Hm'; pose proof (pow2_pos k Hk); lia).
  assert (Hq0 : 0 <= q) by (rewrite Hqdiv; apply Z.div_pos; lia).
  exists q, e', (new_location (Zpos my) r), k.
  split; [reflexivity |]. split; [exact Hq0 |]. split; [exact Hk |].
  split; [unfold k; lia |]. split.
  - rewrite <- Hm'. by apply new_location_located.
  - assert (Hdq : Zdigits2 m' - d2 <= Zdigits2 q)
      by (rewrite Hqdiv; apply Zdigits2_div; lia).
    rewrite Hm', Zdigits2_shift in Hdq by exact Hk. fold d1 in Hdq.
    transitivity (fexp F64.prec F64.emax (d1 + ex - (d2 + ey))); [unfold e'; lia |].
    apply fexp_monotone. unfold k in Hdq. lia.
Qed.

Lemma Qpower2_nonzero (e : Z) : ~ (2 ^ e == 0)%Q.
Proof. pose proof (Qpower2_pos e). lra. Qed.

(** The quotient of the magnitudes of the number [mx * 2^ex] by
    [my * 2^ey], from the integer quotient. *)
Lemma quotient_value (mx my : positive) (ex ey e' k : Z) :
  0 <= k -> ex - ey = e' + k ->
  (inject_Z (Zpos mx * 2 ^ k) / inject_Z (Zpos my) * 2 ^ e'
   == inject_Z (Zpos mx) * 2 ^ ex / (inject_Z (Zpos my) * 2 ^ ey))%Q.
Proof.
  intros Hk He.
  assert (E : (2 ^ ex == 2 ^ ey * (2 ^ e' * inject_Z (2 ^ k)))%Q).
  { rewrite <- Qpower2_shift, <- Qpower2_add by exact Hk. by replace ex with (ey + (e' + k)) by lia. }
  rewrite E, inject_Z_mult.
  pose proof (Qpower2_nonzero ey). pose proof (inject_Z_pos (Zpos my) ltac:(lia)).
  field. split; lra.
Qed.

Lemma signed_div (s1 s2 : bool) (x y : Q) :
  (signed s1 x / signed s2 y == signed (xorb s1 s2) (x / y))%Q.
Proof.
  destruct (Qeq_dec y 0) as [E | Hne].
  - assert (Es : (signed s2 y == 0)%Q) by (destruct s2; simpl; rewrite E; ring).
    unfold Qdiv. assert (Ei : (/ signed s2 y == / 0)%Q) by by rewrite Es.
    assert (Ey : (/ y == / 0)%Q) by by rewrite E.
    rewrite Ei. change (/ 0)%Q with 0%Q.
    transitivity 0%Q; [ring |].
    destruct (xorb s1 s2); simpl; rewrite Ey; change (/ 0)%Q with 0%Q; ring.
  - destruct s1, s2; simpl; field; lra.
Qed.

(** A float divided by a finite float that is not zero, without
    overflow, is the quotient up to one rounding. *)
Lemma div_rounded (x : spec_float) (sy : bool) (my : positive) (ey : Z) :
  is_finite x = true ->
  (Qabs (exact_value x / exact_value (S754_finite sy my ey)) < 2 ^ 1023)%Q ->
  rounded (exact_value x / exact_value (S754_finite sy my ey))
    (F64.div x (S754_finite sy my ey)).
Proof.
  intros Hx Hbound. destruct x as [sx | sx | | sx mx ex]; try discriminate Hx.
  - apply (rounded_wd 0); [rewrite exact_value_zero; unfold Qdiv; ring |].
    by apply (rounded_exact (S754_zero (xorb sx sy))).
  - unfold F64.div, SFdiv.
    destruct (SFdiv_core_binary_spec mx my ex ey)
      as (q & e' & l & k & -> & Hq & Hk & He & Hloc & Hn).
    assert (E : (signed (xorb sx sy)
                   (inject_Z (Zpos mx * 2 ^ k) / inject_Z (Zpos my) * 2 ^ e')
                 == exact_value (S754_finite sx mx ex) / exact_value (S754_finite sy my ey))%Q).
    { rewrite !exact_value_finite, signed_div. apply signed_wd.
      by apply quotient_value. }
    apply (rounded_wd _ _ _ E).
    apply binary_round_aux_rounded; [exact Hq | lia | exact Hloc | exact Hn |].
    rewrite <- E, Qabs_signed in Hbound.
    eapply Qle_lt_trans; [apply Qle_Qabs | exact Hbound].
Qed.

(** *** [float()] of a number *)

Lemma is_inf_finite (x : spec_float) : is_finite x = true -> F64.is_inf x = false.
Proof. by destruct x. Qed.

Lemma of_Z_rounded (z : Z) :
  (Qabs (inject_Z z) < 2 ^ 1023)%Q -> rounded (inject_Z z) (F64.of_Z z).
Proof.
  intros H. assert (E : (inject_Z z * 2 ^ 0 == inject_Z z)%Q) by (simpl; ring).
  apply (rounded_wd _ _ _ E). apply binary_normalize_rounded. by rewrite E.
Qed.

Lemma of_ratio_rounded (s : bool) (n d : positive) :
  ((Zpos n # d) < 2 ^ 1023)%Q -> rounded (signed s (Zpos n # d)) (F64.of_ratio s n d).
Proof.
  intros H. unfold F64.of_ratio.
  destruct (SFdiv_core_binary_spec n d 0 0) as (q & e' & l & k & -> & Hq & Hk & He & Hloc & Hn).
  assert (E : (inject_Z (Zpos n * 2 ^ k) / inject_Z (Zpos d) * 2 ^ e' == Zpos n # d)%Q).
  { rewrite (quotient_value n d 0 0 e' k Hk He), (Qmake_Qdiv (Zpos n) d). simpl. field.
    pose proof (inject_Z_pos (Zpos d) ltac:(lia)). lra. }
  apply (rounded_wd (signed s (inject_Z (Zpos n * 2 ^ k) / inject_Z (Zpos d) * 2 ^ e'))).
  { by apply signed_wd. }
  apply binary_round_aux_rounded; [exact Hq | lia | exact Hloc | exact Hn | by rewrite E].
Qed.

(** [float()] of a number of magnitude below [2^1023] is that number up
    to one rounding. *)
Lemma py_float_rounded (v : pyval) (x : Q) :
  number_value v = Some x -> (Qabs x < 2 ^ 1023)%Q ->
  exists f, py_float v = Ok f /\ rounded x f.
Proof.
  intros Hv Hx. destruct v as [z | f | n d | | | |]; try discriminate Hv; cbn [number_value] in Hv.
  - injection Hv as <-. pose proof (of_Z_rounded z Hx) as Hr.
    exists (F64.of_Z z). split; [| exact Hr].
    cbn [py_float]. unfold float_of_int. by rewrite (is_inf_finite _ (proj1 Hr)).
  - destruct (is_finite f) eqn:Hf; [| discriminate]. injection Hv as <-.
    exists f. split; [reflexivity | by apply rounded_exact].
  - injection Hv as <-. cbn [py_float]. unfold float_of_rational.
    destruct n as [| p | p].
    + exists F64.zero. split; [reflexivity |].
      apply (rounded_wd (exact_value F64.zero)); [reflexivity |]. by apply rounded_exact.
    + assert (Hr : rounded (signed false (Zpos p # d)) (F64.of_ratio false p d)).
      { apply of_ratio_rounded. eapply Qle_lt_trans; [apply Qle_Qabs | exact Hx]. }
      exists (F64.of_ratio false p d). split; [| exact Hr].
      change (Zpos p <? 0)%Z with false. by rewrite (is_inf_finite _ (proj1 Hr)).
    + assert (E : (signed true (Zpos p # d) == Zneg p # d)%Q) by reflexivity.
      assert (Hr : rounded (signed true (Zpos p # d)) (F64.of_ratio true p d)).
      { apply of_ratio_rounded. rewrite <- E, Qabs_signed in Hx.
        eapply Qle_lt_trans; [apply Qle_Qabs | exact Hx]. }
      exists (F64.of_ratio true p d). split; [| exact (rounded_wd _ _ _ E Hr)].
      change (Zneg p <? 0)%Z with true. by rewrite (is_inf_finite _ (proj1 Hr)).
Qed.

(** *** The roundings of [convert_to_degrees], added up *)

Ltac literal_constants :=
  unfold rel_error, abs_error, degrees_error, exact_degrees, magnitude_bound in *;
  repeat match goal with
         | |- context [Pos.pow ?a ?b] =>
             let c := eval vm_compute in (Pos.pow a b) in change (Pos.pow a b) with c in *
         | H : context [Pos.pow ?a ?b] |- _ =>
             let c := eval vm_compute in (Pos.pow a b) in change (Pos.pow a b) with c in *
         | |- context [inject_Z (Z.pow ?a ?b)] =>
             let c := eval vm_compute in (inject_Z (Z.pow a b)) in
             change (inject_Z (Z.pow a b)) with c in *
         | H : context [inject_Z (Z.pow ?a ?b)] |- _ =>
             let c := eval vm_compute in (inject_Z (Z.pow a b)) in
             change (inject_Z (Z.pow a b)) with c in *
         | |- context [Qpower 2 ?b] =>
             let c := eval vm_compute in (Qpower 2 b) in change (Qpower 2 b) with c in *
         | H : context [Qpower 2 ?b] |- _ =>
             let c := eval vm_compute in (Qpower 2 b) in change (Qpower 2 b) with c in *
         end.

(** One rounding of a number of magnitude at most [b]. *)
Lemma rounding_step (x y b : Q) :
  (Qabs (y - x) <= Qabs x * rel_error + abs_error ->
   Qabs x <= b ->
   (- (b * rel_error + abs_error) <= y - x <= b * rel_error + abs_error)
   /\ Qabs y <= b + (b * rel_error + abs_error))%Q.
Proof.
  intros H Hb.
  assert (Hu : (0 <= rel_error)%Q) by by vm_compute.
  assert (H' : (Qabs (y - x) <= b * rel_error + abs_error)%Q).
  { eapply Qle_trans; [exact H |]. apply Qplus_le_l. by apply Qmult_le_compat_r. }
  split; [by apply Qabs_Qle_condition |].
  assert (E : (y == x + (y - x))%Q) by ring. rewrite E at 1.
  eapply Qle_trans; [apply Qabs_triangle |]. by apply Qplus_le_compat.
Qed.

Lemma Qabs_scale (x c : Q) : (0 <= c -> Qabs (x * c) == Qabs x * c)%Q.
Proof. intros Hc. by rewrite Qabs_Qmult, (Qabs_pos c). Qed.

Lemma Qabs_bounds (x : Q) : (- Qabs x <= x <= Qabs x)%Q.
Proof. apply Qabs_Qle_condition, Qle_refl. Qed.

(** The seven roundings of [float(d) + float(m)/60.0 + float(s)/3600.0]:
    three conversions, two quotients, two sums. *)
Lemma degrees_error_analysis (D M S Fd Fm Fs q1 q2 t r : Q) :
  (Qabs D <= magnitude_bound -> Qabs M <= magnitude_bound -> Qabs S <= magnitude_bound ->
   Qabs (Fd - D) <= Qabs D * rel_error + abs_error ->
   Qabs (Fm - M) <= Qabs M * rel_error + abs_error ->
   Qabs (Fs - S) <= Qabs S * rel_error + abs_error ->
   (Qabs (Fm * (1 # 60)) < 2 ^ 1023 ->
    Qabs (q1 - Fm * (1 # 60)) <= Qabs (Fm * (1 # 60)) * rel_error + abs_error) ->
   (Qabs (Fs * (1 # 3600)) < 2 ^ 1023 ->
    Qabs (q2 - Fs * (1 # 3600)) <= Qabs (Fs * (1 # 3600)) * rel_error + abs_error) ->
   (Qabs (Fm * (1 # 60)) < 2 ^ 1023 -> Qabs (Fd + q1) < 2 ^ 1023 ->
    Qabs (t - (Fd + q1)) <= Qabs (Fd + q1) * rel_error + abs_error) ->
   (Qabs (Fm * (1 # 60)) < 2 ^ 1023 -> Qabs (Fs * (1 # 3600)) < 2 ^ 1023 ->
    Qabs (Fd + q1) < 2 ^ 1023 -> Qabs (t + q2) < 2 ^ 1023 ->
    Qabs (r - (t + q2)) <= Qabs (t + q2) * rel_error + abs_error) ->
   Qabs (Fm * (1 # 60)) < 2 ^ 1023 /\ Qabs (Fs * (1 # 3600)) < 2 ^ 1023
   /\ Qabs (Fd + q1) < 2 ^ 1023 /\ Qabs (t + q2) < 2 ^ 1023
   /\ Qabs (r - (D + M * (1 # 60) + S * (1 # 3600)))
      <= (Qabs D + Qabs M * (1 # 60) + Qabs S * (1 # 3600)) * (1 # 2 ^ 50) + (1 # 2 ^ 1070))%Q.
Proof.
  intros HD HM HS HFd HFm HFs Hq1 Hq2 Ht Hr.
  pose proof (Qabs_bounds D) as BD. pose proof (Qabs_bounds M) as BM.
  pose proof (Qabs_bounds S) as BS.
  pose proof (Qabs_nonneg D) as PD. pose proof (Qabs_nonneg M) as PM.
  pose proof (Qabs_nonneg S) as PS.
  set (aD := Qabs D) in *. set (aM := Qabs M) in *. set (aS := Qabs S) in *.
  destruct (rounding_step D Fd aD HFd ltac:(apply Qle_refl)) as [EFd AFd].
  destruct (rounding_step M Fm aM HFm ltac:(apply Qle_refl)) as [EFm AFm].
  destruct (rounding_step S Fs aS HFs ltac:(apply Qle_refl)) as [EFs AFs].
  clear HFd HFm HFs.
  (* the quotients *)
  assert (Am60 : (Qabs (Fm * (1 # 60)) <= (aM + (aM * rel_error + abs_error)) * (1 # 60))%Q).
  { rewrite Qabs_scale by done. by apply Qmult_le_compat_r. }
  assert (As3600 : (Qabs (Fs * (1 # 3600)) <= (aS + (aS * rel_error + abs_error)) * (1 # 3600))%Q).
  { rewrite Qabs_scale by done. by apply Qmult_le_compat_r. }
  assert (Lq1 : (Qabs (Fm * (1 # 60)) < 2 ^ 1023)%Q).
  { eapply Qle_lt_trans; [exact Am60 |]. clear -HM PM. literal_constants. lra. }
  assert (Lq2 : (Qabs (Fs * (1 # 3600)) < 2 ^ 1023)%Q).
  { eapply Qle_lt_trans; [exact As3600 |]. clear -HS PS. literal_constants. lra. }
  destruct (rounding_step _ q1 _ (Hq1 Lq1) Am60) as [Eq1 Aq1].
  destruct (rounding_step _ q2 _ (Hq2 Lq2) As3600) as [Eq2 Aq2].
  clear Hq1 Hq2.
  (* the first sum *)
  assert (As1 : (Qabs (Fd + q1) <= _)%Q)
    by (eapply Qle_trans; [apply Qabs_triangle | apply (Qplus_le_compat _ _ _ _ AFd Aq1)]).
  assert (Ls1 : (Qabs (Fd + q1) < 2 ^ 1023)%Q).
  { eapply Qle_lt_trans; [exact As1 |]. clear -HD HM PD PM. literal_constants. lra. }
  destruct (rounding_step _ t _ (Ht Lq1 Ls1) As1) as [Et At]. clear Ht.
  (* the second sum *)
  assert (As2 : (Qabs (t + q2) <= _)%Q)
    by (eapply Qle_trans; [apply Qabs_triangle | apply (Qplus_le_compat _ _ _ _ At Aq2)]).
  assert (Ls2 : (Qabs (t + q2) < 2 ^ 1023)%Q).
  { eapply Qle_lt_trans; [exact As2 |]. clear -HD HM HS PD PM PS. literal_constants. lra. }
  destruct (rounding_step _ r _ (Hr Lq1 Lq2 Ls1 Ls2) As2) as [Er _]. clear Hr.
  split; [exact Lq1 |]. split; [exact Lq2 |]. split; [exact Ls1 |]. split; [exact Ls2 |].
  apply Qabs_Qle_condition.
  clear Am60 As3600 Lq1 Lq2 As1 Ls1 As2 Ls2 AFd AFm AFs Aq1 Aq2 At HD HM HS.
  literal_constants. split; lra.
Qed.

(** *** [convert_to_degrees] on a triple of numbers *)

Lemma f60_value :
  f60 = S754_finite false 8444249301319680 (-47) /\ (exact_value f60 == 60)%Q.
Proof. split; [reflexivity | by vm_compute]. Qed.

Lemma f3600_value :
  f3600 = S754_finite false 7916483719987200 (-41) /\ (exact_value f3600 == 3600)%Q.
Proof. split; [reflexivity | by vm_compute]. Qed.

Lemma magnitude_below_overflow (x : Q) :
  (Qabs x <= magnitude_bound -> Qabs x < 2 ^ 1023)%Q.
Proof. intros H. eapply Qle_lt_trans; [exact H | by vm_compute]. Qed.

(** The expression of line 80 on three floats that are numbers up to one
    rounding. *)
Lemma degrees_expression_close (fd fm fs : spec_float) (D M S : Q) :
  rounded D fd -> rounded M fm -> rounded S fs ->
  (Qabs D <= magnitude_bound)%Q -> (Qabs M <= magnitude_bound)%Q ->
  (Qabs S <= magnitude_bound)%Q ->
  close_to_degrees D M S (F64.add (F64.add fd (F64.div fm f60)) (F64.div fs f3600)).
Proof.
  intros [FD RD] [FM RM] [FS RS] HD HM HS.
  destruct f60_value as [E60 V60]. destruct f3600_value as [E3600 V3600].
  assert (D60 : forall x, (x / exact_value f60 == x * (1 # 60))%Q)
    by (intros x; rewrite V60; reflexivity).
  assert (D3600 : forall x, (x / exact_value f3600 == x * (1 # 3600))%Q)
    by (intros x; rewrite V3600; reflexivity).
  set (q1 := F64.div fm f60). set (q2 := F64.div fs f3600).
  set (t := F64.add fd q1). set (r := F64.add t q2).
  assert (R1 : (Qabs (exact_value fm * (1 # 60)) < 2 ^ 1023)%Q ->
               rounded (exact_value fm * (1 # 60)) q1).
  { intros L. apply (rounded_wd _ _ _ (D60 _)). unfold q1. rewrite E60.
    apply div_rounded; [exact FM |]. by rewrite <- E60, D60. }
  assert (R2 : (Qabs (exact_value fs * (1 # 3600)) < 2 ^ 1023)%Q ->
               rounded (exact_value fs * (1 # 3600)) q2).
  { intros L. apply (rounded_wd _ _ _ (D3600 _)). unfold q2. rewrite E3600.
    apply div_rounded; [exact FS |]. by rewrite <- E3600, D3600. }
  assert (R3 : (Qabs (exact_value fm * (1 # 60)) < 2 ^ 1023)%Q ->
               (Qabs (exact_value fd + exact_value q1) < 2 ^ 1023)%Q ->
               rounded (exact_value fd + exact_value q1) t).
  { intros L1 L3. apply add_rounded; [exact FD | exact (proj1 (R1 L1)) | exact L3]. }
  assert (R4 : (Qabs (exact_value fm * (1 # 60)) < 2 ^ 1023)%Q ->
               (Qabs (exact_value fs * (1 # 3600)) < 2 ^ 1023)%Q ->
               (Qabs (exact_value fd + exact_value q1) < 2 ^ 1023)%Q ->
               (Qabs (exact_value t + exact_value q2) < 2 ^ 1023)%Q ->
               rounded (exact_value t + exact_value q2) r).
  { intros L1 L2 L3 L4.
    apply add_rounded; [exact (proj1 (R3 L1 L3)) | exact (proj1 (R2 L2)) | exact L4]. }
  destruct (degrees_error_analysis D M S (exact_value fd) (exact_value fm) (exact_value fs)
              (exact_value q1) (exact_value q2) (exact_value t) (exact_value r)
              HD HM HS RD RM RS
              (fun L => proj2 (R1 L)) (fun L => proj2 (R2 L))
              (fun L1 L3 => proj2 (R3 L1 L3))
              (fun L1 L2 L3 L4 => proj2 (R4 L1 L2 L3 L4)))
    as (L1 & L2 & L3 & L4 & Hclose).
  split; [exact (proj1 (R4 L1 L2 L3 L4)) | exact Hclose].
Qed.

Lemma convert_to_degrees_close (value : pyval) (d m s : Q) :
  sexagesimal value d m s ->
  exists r, convert_to_degrees value = Ok r /\ close_to_degrees d m s r.
Proof.
  intros (vd & vm & vs & -> & Hd & Hm & Hs & Bd & Bm & Bs).
  destruct (py_float_rounded vd d Hd (magnitude_below_overflow d Bd)) as (fd & Ed & Rd).
  destruct (py_float_rounded vm m Hm (magnitude_below_overflow m Bm)) as (fm & Em & Rm).
  destruct (py_float_rounded vs s Hs (magnitude_below_overflow s Bs)) as (fs & Es & Rs).
  eexists. split; [exact (convert_to_degrees_triple vd vm vs fd fm fs Ed Em Es) |].
  by apply degrees_expression_close.
Qed.




(** ** The scenario of the specification *)

(** C9: the scenario block gives about (40.7484, -73.9858), and with the
    references ["S"] and ["E"] about (-40.7484, 73.9858): each coordinate is
    within 0.00005 of the stated decimal. *)
Theorem get_lat_lon_scenario :
  (exists lat lon,
      get_lat_lon (sample_exif (PStr "N") (PStr "W")) = Ok (Some lat, Some lon)
      /\ agrees_4dp lat (407484 / 10000) /\ agrees_4dp lon (- (739858 / 10000)))
  /\ (exists lat lon,
         get_lat_lon (sample_exif (PStr "S") (PStr "E")) = Ok (Some lat, Some lon)
         /\ agrees_4dp lat (- (407484 / 10000)) /\ agrees_4dp lon (739858 / 10000)).
Proof.
  split.
  - exists (S754_finite false 5734832161747859 (-47)),
           (S754_finite true 5206285487355007 (-46)).
    split; [vm_compute; reflexivity |]. split; vm_compute; reflexivity.
  - exists (S754_finite true 5734832161747859 (-47)),
           (S754_finite false 5206285487355007 (-46)).
    split; [vm_compute; reflexivity |]. split; vm_compute; reflexivity.
Qed.

(** ** Hex digests and flipped bits *)

Lemma hex_is_ascii (bs : bytes) : is_ascii (HMAC.hex bs) = true.
Proof.
  unfold is_ascii, HMAC.hex. rewrite list_ascii_of_string_of_list_ascii.
  induction bs as [| x bs IH]; [reflexivity |].
  cbn [flat_map app forallb]. rewrite IH. by destruct x.
Qed.

Lemma sha256_length (msg : bytes) : length (SHA256.digest msg) = 32%nat.
Proof.
  unfold SHA256.digest.
  generalize (fold_left SHA256.compress
                (SHA256.chunks (length (SHA256.pad msg)) 64 (SHA256.pad msg)) SHA256.initial).
  intros s. reflexivity.
Qed.

Lemma hex_length (bs : bytes) :
  length (list_ascii_of_string (HMAC.hex bs)) = (2 * length bs)%nat.
Proof.
  unfold HMAC.hex. rewrite list_ascii_of_string_of_list_ascii.
  induction bs as [| x bs IH]; [reflexivity |].
  cbn [flat_map app length]. rewrite IH. lia.
Qed.






Section FlipBit.
(** A text and a position in it. *)
Variables (s : string) (i : nat).
Hypothesis Hi : (i < length (list_ascii_of_string s))%nat.




End FlipBit.

(** ** [verify_signature] under a set secret *)

Section SetSecret.
Variables (secret : string) (payload : json).

Lemma correct_signature_length :
  length (list_ascii_of_string (correct_signature secret payload)) = 64%nat.
Proof.
  unfold correct_signature, HMAC.hexdigest, HMAC.digest.
  by rewrite hex_length, sha256_length.
Qed.

Lemma correct_signature_ascii : is_ascii (correct_signature secret payload) = true.
Proof. apply hex_is_ascii. Qed.

(** The call is the comparison with the correct signature. *)
Lemma verify_signature_set (signature : option string) :
  verify_signature (Some secret) payload signature
  = compare_digest (correct_signature secret payload) signature.
Proof. reflexivity. Qed.

Lemma verify_signature_ascii (sig : string) :
  is_ascii sig = true ->
  verify_signature (Some secret) payload (Some sig)
  = Ok (String.eqb (correct_signature secret payload) sig).
Proof.
  intros H. rewrite verify_signature_set. unfold compare_digest.
  by rewrite correct_signature_ascii, H.
Qed.

Lemma verify_signature_not_ascii (sig : string) :
  is_ascii sig = false ->
  verify_signature (Some secret) payload (Some sig) = Raise TypeError.
Proof.
  intros H. rewrite verify_signature_set. unfold compare_digest.
  by rewrite H, andb_false_r.
Qed.

Lemma verify_signature_correct :
  verify_signature (Some secret) payload (Some (correct_signature secret payload)) = Ok true.
Proof.
  rewrite verify_signature_ascii by apply correct_signature_ascii.
  by rewrite String.eqb_refl.
Qed.

Lemma verify_signature_other (sig : string) :
  sig <> correct_signature secret payload ->
  verify_signature (Some secret) payload (Some sig)
  = if is_ascii sig then Ok false else Raise TypeError.
Proof.
  intros Hne. destruct (is_ascii sig) eqn:A.
  - rewrite (verify_signature_ascii _ A). f_equal.
    apply String.eqb_neq. congruence.
  - by apply verify_signature_not_ascii.
Qed.

End SetSecret.






(** * Further properties of the code *)

(** ** [convert_to_degrees] and [get_lat_lon] at the edges *)

(** X1: the shape of the argument. A sequence of fewer than three values,
    each of which [float()] converts, is an [IndexError]; of a longer
    sequence only the first three values are read; a bare number is a
    [TypeError]. *)
Theorem convert_to_degrees_shape :
  (forall l : list pyval,
      (length l < 3)%nat ->
      Forall (fun v => exists x, py_float v = Ok x) l ->
      convert_to_degrees (PSeq l) = Raise IndexError)
  /\ (forall d m s rest,
         convert_to_degrees (PSeq (d :: m :: s :: rest)) = convert_to_degrees (PSeq [d; m; s]))
  /\ (forall z, convert_to_degrees (PInt z) = Raise TypeError)
  /\ (forall x, convert_to_degrees (PFloat x) = Raise TypeError)
  /\ (forall n d, convert_to_degrees (PRational n d) = Raise TypeError).
Proof.
  split; [| repeat split].
  intros l Hlen Hall. unfold convert_to_degrees.
  destruct l as [| d [| m [| s l]]]; [reflexivity | | | simpl in Hlen; lia].
  - apply Forall_cons in Hall as [[x Hx] _].
    cbn [py_getitem]. unfold seq_index. simpl. rewrite Hx. reflexivity.
  - apply Forall_cons in Hall as [[x Hx] Hall].
    apply Forall_cons in Hall as [[y Hy] _].
    cbn [py_getitem]. unfold seq_index. simpl. rewrite Hx. simpl. rewrite Hy. reflexivity.
Qed.

Lemma convert_to_degrees_shape_witness :
  (length [PInt 40; PRational 44 1] < 3)%nat
  /\ Forall (fun v => exists x, py_float v = Ok x) [PInt 40; PRational 44 1]
  /\ convert_to_degrees (PSeq [PInt 40; PRational 44 1]) = Raise IndexError.
Proof.
  assert (H : Forall (fun v => exists x, py_float v = Ok x) [PInt 40; PRational 44 1]).
  { repeat constructor; eexists; vm_compute; reflexivity. }
  split; [simpl; lia |]. split; [exact H |].
  apply (proj1 convert_to_degrees_shape); [simpl; lia | exact H].
Defined.

Lemma whole_degrees (x : spec_float) :
  x <> S754_zero true ->
  F64.add (F64.add x (F64.div (F64.of_Z 0) f60)) (F64.div (F64.of_Z 0) f3600) = x.
Proof.
  intros H. change (F64.div (F64.of_Z 0) f60) with (S754_zero false).
  change (F64.div (F64.of_Z 0) f3600) with (S754_zero false).
  destruct x as [[] | [] | | s m e]; try reflexivity. by destruct H.
Qed.

(** X2: no range is checked. With minutes and seconds 0, any float given
    as degrees, out of range, infinite or NaN, comes back as the
    coordinate (negative zero apart, which comes back as zero). *)
Theorem get_lat_lon_unchecked_range (exif gps : gmap tagkey pyval) (x y : spec_float) :
  exif !! KName "GPSInfo" = Some (PDict gps) ->
  gps !! KName "GPSLatitude" = Some (PSeq [PFloat x; PInt 0; PInt 0]) ->
  gps !! KName "GPSLatitudeRef" = Some (PStr "N") ->
  gps !! KName "GPSLongitude" = Some (PSeq [PFloat y; PInt 0; PInt 0]) ->
  gps !! KName "GPSLongitudeRef" = Some (PStr "E") ->
  x <> S754_zero true -> y <> S754_zero true ->
  get_lat_lon exif = Ok (Some x, Some y).
Proof.
  intros He H1 H2 H3 H4 Hx Hy.
  rewrite (get_lat_lon_complete _ _ _ _ _ _ He H1 H2 H3 H4).
  rewrite (convert_to_degrees_triple (PFloat x) (PInt 0) (PInt 0) x (F64.of_Z 0) (F64.of_Z 0))
    by reflexivity.
  rewrite bind_ok.
  rewrite (convert_to_degrees_triple (PFloat y) (PInt 0) (PInt 0) y (F64.of_Z 0) (F64.of_Z 0))
    by reflexivity.
  rewrite bind_ok, !hemisphere_same. unfold decimal_degrees.
  by rewrite !whole_degrees.
Qed.

Lemma get_lat_lon_unchecked_range_witness :
  F64.of_Z 1000 <> S754_zero true /\ S754_nan <> S754_zero true
  /\ get_lat_lon
       (<[KName "GPSInfo" :=
            PDict (<[KName "GPSLatitude" := PSeq [PFloat (F64.of_Z 1000); PInt 0; PInt 0]]>
                     (<[KName "GPSLatitudeRef" := PStr "N"]>
                        (<[KName "GPSLongitude" := PSeq [PFloat S754_nan; PInt 0; PInt 0]]>
                           (<[KName "GPSLongitudeRef" := PStr "E"]> ∅))))]> ∅)
     = Ok (Some (F64.of_Z 1000), Some S754_nan).
Proof.
  split; [vm_compute; discriminate |]. split; [discriminate |].
  eapply get_lat_lon_unchecked_range; try reflexivity; vm_compute; discriminate.
Defined.

(** X3: a ["GPSInfo"] entry that is no mapping is a [TypeError]. *)
Theorem get_lat_lon_gps_not_a_mapping (exif : gmap tagkey pyval) (v : pyval) :
  exif !! KName "GPSInfo" = Some v ->
  (forall d, v <> PDict d) ->
  get_lat_lon exif = Raise TypeError.
Proof.
  intros He Hv. rewrite (get_lat_lon_present _ _ He).
  destruct v; try reflexivity. by destruct (Hv d).
Qed.

Lemma get_lat_lon_gps_not_a_mapping_witness :
  (<[KName "GPSInfo" := PInt 3]> ∅ : gmap tagkey pyval) !! KName "GPSInfo" = Some (PInt 3)
  /\ (forall d, PInt 3 <> PDict d)
  /\ get_lat_lon (<[KName "GPSInfo" := PInt 3]> ∅) = Raise TypeError.
Proof.
  split; [reflexivity |]. split; [discriminate |].
  apply (get_lat_lon_gps_not_a_mapping _ (PInt 3)); [reflexivity | discriminate].
Defined.

(** ** The coordinates against the exact formula *)

Lemma zero_minus_value (x : spec_float) :
  is_finite x = true ->
  is_finite (F64.sub F64.zero x) = true
  /\ (exact_value (F64.sub F64.zero x) == - exact_value x)%Q.
Proof.
  destruct x as [[] | | | s m e]; try discriminate; intros _.
  - by split.
  - by split.
  - split; [reflexivity |]. change (F64.sub F64.zero (S754_finite s m e))
      with (S754_finite (negb s) m e).
    rewrite !exact_value_finite. destruct s; simpl; ring.
Qed.

Lemma hemisphere_value (ref : pyval) (letter : string) (x : spec_float) :
  is_finite x = true ->
  is_finite (hemisphere ref letter x) = true
  /\ (exact_value (hemisphere ref letter x)
      == signed (py_ne_str ref letter) (exact_value x))%Q.
Proof.
  intros Hx. unfold hemisphere. destruct (py_ne_str ref letter).
  - by apply zero_minus_value.
  - by split.
Qed.

(** X19: for a GPS block with the four keys whose latitude and longitude
    are triples of numbers, [get_lat_lon] returns two floats, each the
    number [d + m/60 + s/3600] of its triple, taken negative unless the
    reference is ["N"], for the longitude ["E"], up to the roundings of the
    conversion. *)
Theorem get_lat_lon_signed_degrees (exif gps : gmap tagkey pyval)
    (la lar lo lor : pyval) (d1 m1 s1 d2 m2 s2 : Q) :
  exif !! KName "GPSInfo" = Some (PDict gps) ->
  gps !! KName "GPSLatitude" = Some la ->
  gps !! KName "GPSLatitudeRef" = Some lar ->
  gps !! KName "GPSLongitude" = Some lo ->
  gps !! KName "GPSLongitudeRef" = Some lor ->
  sexagesimal la d1 m1 s1 ->
  sexagesimal lo d2 m2 s2 ->
  exists lat lon,
    get_lat_lon exif = Ok (Some lat, Some lon)
    /\ is_finite lat = true /\ is_finite lon = true
    /\ (Qabs (exact_value lat - signed (py_ne_str lar "N") (exact_degrees d1 m1 s1))
        <= degrees_error d1 m1 s1)%Q
    /\ (Qabs (exact_value lon - signed (py_ne_str lor "E") (exact_degrees d2 m2 s2))
        <= degrees_error d2 m2 s2)%Q.
Proof.
  intros Hgps Hla Hlar Hlo Hlor H1 H2.
  destruct (convert_to_degrees_close la d1 m1 s1 H1) as (x & Ex & Fx & Cx).
  destruct (convert_to_degrees_close lo d2 m2 s2 H2) as (y & Ey & Fy & Cy).
  destruct (hemisphere_value lar "N" x Fx) as [Flat Vlat].
  destruct (hemisphere_value lor "E" y Fy) as [Flon Vlon].
  exists (hemisphere lar "N" x), (hemisphere lor "E" y).
  split.
  { rewrite (get_lat_lon_complete _ _ _ _ _ _ Hgps Hla Hlar Hlo Hlor).
    by rewrite Ex, bind_ok, Ey, bind_ok. }
  split; [exact Flat |]. split; [exact Flon |].
  split.
  - by rewrite Vlat, signed_minus, Qabs_signed.
  - by rewrite Vlon, signed_minus, Qabs_signed.
Qed.

Lemma get_lat_lon_signed_degrees_witness :
  sexagesimal (PSeq [PInt 40; PInt 44; PFloat f54_36]) 40 44 (exact_value f54_36)
  /\ sexagesimal (PSeq [PInt 73; PInt 59; PFloat f8_76]) 73 59 (exact_value f8_76)
  /\ py_ne_str (PStr "N") "N" = false /\ py_ne_str (PStr "W") "E" = true
  /\ exists lat lon,
      get_lat_lon (sample_exif (PStr "N") (PStr "W")) = Ok (Some lat, Some lon)
      /\ is_finite lat = true /\ is_finite lon = true
      /\ (Qabs (exact_value lat
                - signed (py_ne_str (PStr "N") "N") (exact_degrees 40 44 (exact_value f54_36)))
          <= degrees_error 40 44 (exact_value f54_36))%Q
      /\ (Qabs (exact_value lon
                - signed (py_ne_str (PStr "W") "E") (exact_degrees 73 59 (exact_value f8_76)))
          <= degrees_error 73 59 (exact_value f8_76))%Q.
Proof.
  assert (H1 : sexagesimal (PSeq [PInt 40; PInt 44; PFloat f54_36]) 40 44 (exact_value f54_36)).
  { exists (PInt 40), (PInt 44), (PFloat f54_36).
    repeat split; try reflexivity; vm_compute; discriminate. }
  assert (H2 : sexagesimal (PSeq [PInt 73; PInt 59; PFloat f8_76]) 73 59 (exact_value f8_76)).
  { exists (PInt 73), (PInt 59), (PFloat f8_76).
    repeat split; try reflexivity; vm_compute; discriminate. }
  split; [exact H1 |]. split; [exact H2 |]. split; [reflexivity |]. split; [reflexivity |].
  exact (get_lat_lon_signed_degrees
           (sample_exif (PStr "N") (PStr "W")) (sample_gps (PStr "N") (PStr "W"))
           _ _ _ _ _ _ _ _ _ _ eq_refl eq_refl eq_refl eq_refl eq_refl H1 H2).
Defined.

(** ** Loops and assignments in order *)

Lemma map_fmap {A B} (f : A -> B) (l : list A) : map f l = f <$> l.
Proof. induction l as [| a l IH]; [reflexivity |]. simpl. by rewrite IH. Qed.

Lemma for_each_app {A S} (step : S -> A -> result S) (l1 l2 : list A) (s : S) :
  for_each step (l1 ++ l2) s = for_each step l1 s ≫= for_each step l2.
Proof.
  revert s. induction l1 as [| a l1 IH]; intros s; [reflexivity |].
  simpl. destruct (step s a) as [s' |]; [apply IH | reflexivity].
Qed.

Section AssignInOrder.
(** Items assigned one after the other, each under its key. *)
Context {A : Type} (key : A -> tagkey) (val : A -> pyval).

Lemma fold_insert_frame (l : list A) (d : gmap tagkey pyval) (k : tagkey) :
  k ∉ map key l ->
  fold_left (fun d a => <[key a := val a]> d) l d !! k = d !! k.
Proof.
  revert d. induction l as [| a l IH]; intros d H; [reflexivity |].
  simpl in *. apply not_elem_of_cons in H as [H1 H2].
  rewrite IH by done. by rewrite lookup_insert_ne.
Qed.

Lemma fold_insert_lookup (l : list A) (d : gmap tagkey pyval) (a : A) :
  NoDup (map key l) -> a ∈ l ->
  fold_left (fun d a => <[key a := val a]> d) l d !! key a = Some (val a).
Proof.
  revert d. induction l as [| b l IH]; intros d Hnd Hin; [by apply elem_of_nil in Hin |].
  simpl in *. apply NoDup_cons in Hnd as [Hb Hnd].
  apply elem_of_cons in Hin as [-> | Hin].
  - rewrite fold_insert_frame by done. apply lookup_insert_eq.
  - by apply IH.
Qed.
End AssignInOrder.

Lemma NoDup_map_inj {A B} (f : A -> B) (l : list A) (x y : A) :
  NoDup (map f l) -> x ∈ l -> y ∈ l -> f x = f y -> x = y.
Proof.
  induction l as [| a l IH]; intros Hnd Hx Hy E; [by apply elem_of_nil in Hx |].
  simpl in Hnd. apply NoDup_cons in Hnd as [Ha Hnd].
  assert (Hin : forall z, z ∈ l -> f z ∈ map f l).
  { intros z Hz. rewrite map_fmap. by apply list_elem_of_fmap_2. }
  apply elem_of_cons in Hx as [-> | Hx]; apply elem_of_cons in Hy as [-> | Hy].
  - reflexivity.
  - destruct Ha. rewrite E. by apply Hin.
  - destruct Ha. rewrite <- E. by apply Hin.
  - by apply IH.
Qed.

(** ** [get_lat_lon], seen from its caller *)

Lemma get_lat_lon_present_pair (exif : gmap tagkey pyval) (v : pyval) (r : latlon) :
  exif !! KName "GPSInfo" = Some v ->
  get_lat_lon exif = Ok r ->
  exists lat lon, r = (Some lat, Some lon).
Proof.
  intros He H. rewrite (get_lat_lon_present _ _ He) in H.
  destruct (py_getitem v (KName "GPSLatitude")) as [v1 |]; [| discriminate].
  destruct (py_getitem v (KName "GPSLatitudeRef")) as [v2 |]; [| discriminate].
  destruct (py_getitem v (KName "GPSLongitude")) as [v3 |]; [| discriminate].
  destruct (py_getitem v (KName "GPSLongitudeRef")) as [v4 |]; [| discriminate].
  rewrite !bind_ok in H.
  destruct (convert_to_degrees v1) as [lat |]; [| discriminate].
  destruct (convert_to_degrees v3) as [lon |]; [| discriminate].
  rewrite !bind_ok in H. injection H as <-. eauto.
Qed.

Lemma get_lat_lon_key_error (exif gps : gmap tagkey pyval) (k : string) :
  exif !! KName "GPSInfo" = Some (PDict gps) ->
  In k required_keys ->
  gps !! KName k = None ->
  exists k', In k' required_keys
             /\ gps !! KName k' = None
             /\ get_lat_lon exif = Raise (KeyError (KName k')).
Proof.
  intros He Hk Hnone. rewrite (get_lat_lon_present _ _ He). cbn [py_getitem].
  destruct (gps !! KName "GPSLatitude") as [v1 |] eqn:E1;
    [| exists "GPSLatitude"; simpl; tauto].
  destruct (gps !! KName "GPSLatitudeRef") as [v2 |] eqn:E2;
    [| exists "GPSLatitudeRef"; simpl; tauto].
  destruct (gps !! KName "GPSLongitude") as [v3 |] eqn:E3;
    [| exists "GPSLongitude"; simpl; tauto].
  destruct (gps !! KName "GPSLongitudeRef") as [v4 |] eqn:E4;
    [| exists "GPSLongitudeRef"; simpl; tauto].
  exfalso. destruct Hk as [<- | [<- | [<- | [<- | []]]]]; congruence.
Qed.

(** ** [get_exif_data] *)

Section GetExifData.
Variables TAGS GPSTAGS : gmap Z string.

Lemma get_exif_data_items (items : list (Z * rawval)) :
  get_exif_data TAGS GPSTAGS (with_exif (Some items)) = for_each (exif_store TAGS GPSTAGS) items ∅.
Proof. by destruct items. Qed.

(** One turn of the outer loop assigns one entry, under the name of the
    tag: the value itself, or for ["GPSInfo"] the mapping the inner loop
    has built. *)
Lemma exif_store_result (acc m : gmap tagkey pyval) (it : Z * rawval) :
  exif_store TAGS GPSTAGS acc it = Ok m ->
  exists v,
    m = <[item_name TAGS it := v]> acc
    /\ (item_name TAGS it <> KName "GPSInfo" -> v = to_pyval (snd it))
    /\ (item_name TAGS it = KName "GPSInfo" ->
        exists tags gps,
          iterate (snd it) = Ok tags
          /\ for_each (gps_store GPSTAGS (snd it)) tags ∅ = Ok gps
          /\ v = PDict gps).
Proof.
  destruct it as [tag value]. unfold exif_store, item_name. simpl.
  case_bool_decide as Hname.
  - destruct (iterate value) as [tags |]; [| discriminate]. rewrite bind_ok.
    destruct (for_each (gps_store GPSTAGS value) tags ∅) as [gps |] eqn:Egps; [| discriminate].
    rewrite bind_ok. intros [= <-]. exists (PDict gps).
    split; [reflexivity |]. split; [intros Hne; by destruct Hne |].
    intros _. exists tags, gps. by rewrite Egps.
  - intros [= <-]. exists (to_pyval value).
    split; [reflexivity |]. split; [reflexivity |]. intros Hgps. by destruct Hname.
Qed.

Lemma exif_loop_frame (items : list (Z * rawval)) (acc m : gmap tagkey pyval) (k : tagkey) :
  for_each (exif_store TAGS GPSTAGS) items acc = Ok m ->
  k ∉ map (item_name TAGS) items ->
  m !! k = acc !! k.
Proof.
  revert acc. induction items as [| it items IH]; intros acc H Hk.
  - by injection H as <-.
  - simpl in *. apply not_elem_of_cons in Hk as [Hk1 Hk2].
    destruct (exif_store TAGS GPSTAGS acc it) as [acc' |] eqn:E; [| discriminate].
    rewrite bind_ok in H. apply exif_store_result in E as (v & -> & _).
    rewrite (IH _ H Hk2). by rewrite lookup_insert_ne.
Qed.

Lemma exif_loop_lookup (items : list (Z * rawval)) (acc m : gmap tagkey pyval)
    (it : Z * rawval) :
  NoDup (map (item_name TAGS) items) ->
  for_each (exif_store TAGS GPSTAGS) items acc = Ok m ->
  it ∈ items ->
  exists v,
    m !! item_name TAGS it = Some v
    /\ (item_name TAGS it <> KName "GPSInfo" -> v = to_pyval (snd it))
    /\ (item_name TAGS it = KName "GPSInfo" ->
        exists tags gps,
          iterate (snd it) = Ok tags
          /\ for_each (gps_store GPSTAGS (snd it)) tags ∅ = Ok gps
          /\ v = PDict gps).
Proof.
  revert acc. induction items as [| it' items IH]; intros acc Hnd H Hin;
    [by apply elem_of_nil in Hin |].
  simpl in *. apply NoDup_cons in Hnd as [Hfresh Hnd].
  destruct (exif_store TAGS GPSTAGS acc it') as [acc' |] eqn:E; [| discriminate].
  rewrite bind_ok in H.
  apply elem_of_cons in Hin as [-> | Hin]; [| by apply (IH acc')].
  apply exif_store_result in E as (v & -> & Hv).
  exists v. split; [| exact Hv].
  rewrite (exif_loop_frame _ _ _ _ H Hfresh). apply lookup_insert_eq.
Qed.

(** The loop goes through when the inner loop does, for every tag named
    ["GPSInfo"]. *)
Lemma exif_loop_ok (items : list (Z * rawval)) (acc : gmap tagkey pyval) :
  Forall (fun it => item_name TAGS it = KName "GPSInfo" ->
                    exists gps, (iterate (snd it)
                                 ≫= fun tags => for_each (gps_store GPSTAGS (snd it)) tags ∅)
                                = Ok gps) items ->
  exists m, for_each (exif_store TAGS GPSTAGS) items acc = Ok m.
Proof.
  revert acc. induction items as [| [tag value] items IH]; intros acc H; [by exists acc |].
  apply Forall_cons in H as [Hit H]. simpl.
  unfold item_name in Hit. simpl in Hit.
  case_bool_decide as Hname.
  - destruct (Hit Hname) as [gps Hgps].
    destruct (iterate value) as [tags |]; [| discriminate].
    rewrite bind_ok in Hgps |- *. rewrite Hgps, !bind_ok. by apply IH.
  - rewrite bind_ok. by apply IH.
Qed.

Lemma exif_loop_gps_mapping (items : list (Z * rawval)) (acc m : gmap tagkey pyval) :
  (forall v, acc !! KName "GPSInfo" = Some v -> exists d, v = PDict d) ->
  for_each (exif_store TAGS GPSTAGS) items acc = Ok m ->
  forall v, m !! KName "GPSInfo" = Some v -> exists d, v = PDict d.
Proof.
  revert acc. induction items as [| it items IH]; intros acc Hacc H; [by injection H as <- |].
  simpl in H. destruct (exif_store TAGS GPSTAGS acc it) as [acc' |] eqn:E; [| discriminate].
  rewrite bind_ok in H. apply (IH acc'); [| exact H].
  apply exif_store_result in E as (v & -> & Hplain & Hgps).
  intros w Hw. destruct (decide (item_name TAGS it = KName "GPSInfo")) as [Hn | Hn].
  - rewrite Hn, lookup_insert_eq in Hw. injection Hw as <-.
    destruct (Hgps Hn) as (tags & gps & _ & _ & ->). by exists gps.
  - rewrite lookup_insert_ne in Hw by done. by apply Hacc.
Qed.

(** The inner loop on a directory: each sub-tag is read back from the
    directory and assigned under its name. *)
Lemma ifd_dict_lookup (ifd : list (Z * pyval)) (k : Z) (v : pyval) :
  NoDup (map fst ifd) -> (k, v) ∈ ifd -> ifd_dict ifd !! KNum k = Some v.
Proof.
  intros Hnd Hin. unfold ifd_dict.
  apply (fold_insert_lookup (fun kv => KNum (fst kv)) snd ifd ∅ (k, v)); [| exact Hin].
  clear Hin. induction ifd as [| kv ifd IH]; [constructor |].
  simpl in *. apply NoDup_cons in Hnd as [Hfresh Hnd]. apply NoDup_cons. split; [| by apply IH].
  intros Hk. apply Hfresh. clear -Hk.
  induction ifd as [| kv' ifd IH]; [by apply elem_of_nil in Hk |].
  simpl in *. apply elem_of_cons in Hk as [[= ->] | Hk]; [left | right; by apply IH].
Qed.

Lemma gps_loop_ifd (ifd sub : list (Z * pyval)) (acc : gmap tagkey pyval) :
  NoDup (map fst ifd) -> sub ⊆ ifd ->
  for_each (gps_store GPSTAGS (RIfd ifd)) (map (fun kv => Some (KNum (fst kv))) sub) acc
  = Ok (fold_left (fun d kv => <[item_name GPSTAGS kv := snd kv]> d) sub acc).
Proof.
  intros Hnd. revert acc. induction sub as [| [k v] sub IH]; intros acc Hsub; [reflexivity |].
  simpl. rewrite (ifd_dict_lookup ifd k v Hnd) by (apply Hsub; left).
  rewrite bind_ok. apply IH. intros kv Hkv. apply Hsub. by right.
Qed.

Lemma NoDup_names_keys {X} (table : gmap Z string) (l : list (Z * X)) :
  NoDup (map (item_name table) l) -> NoDup (map fst l).
Proof.
  induction l as [| kv l IH]; [constructor |].
  simpl. intros Hnd. apply NoDup_cons in Hnd as [Hfresh Hnd]. apply NoDup_cons.
  split; [| by apply IH]. intros Hk. apply Hfresh. clear -Hk.
  induction l as [| kv' l IH]; [by apply elem_of_nil in Hk |].
  simpl in *. unfold item_name at 1 2.
  apply elem_of_cons in Hk as [-> | Hk]; [left | right; by apply IH].
Qed.

Lemma gps_run_ifd (ifd : list (Z * pyval)) :
  NoDup (map (item_name GPSTAGS) ifd) ->
  (iterate (RIfd ifd) ≫= fun tags => for_each (gps_store GPSTAGS (RIfd ifd)) tags ∅)
  = Ok (fold_left (fun d kv => <[item_name GPSTAGS kv := snd kv]> d) ifd ∅).
Proof.
  intros Hnd. cbn [iterate]. rewrite bind_ok.
  apply gps_loop_ifd; [by apply (NoDup_names_keys GPSTAGS) | done].
Qed.

(** X4: [get_exif_data] raises what [image._getexif()] raises, which is
    [AttributeError] for an image whose class has no such method. When the
    call returns and no tag is named ["GPSInfo"], as when it returns [None],
    [get_exif_data] goes through, its result has no ["GPSInfo"] entry and
    [get_lat_lon] returns [(None, None)] on it. *)
Theorem get_exif_data_without_gps (image : image) :
  (forall e, _getexif image = Raise e -> get_exif_data TAGS GPSTAGS image = Raise e)
  /\ (forall info,
        _getexif image = Ok info ->
        (forall items, info = Some items ->
                       Forall (fun it => item_name TAGS it <> KName "GPSInfo") items) ->
        exists m,
          get_exif_data TAGS GPSTAGS image = Ok m
          /\ m !! KName "GPSInfo" = None
          /\ get_lat_lon m = Ok (None, None)).
Proof.
  destruct image as [r]. split.
  - intros e He. simpl in He. subst r. reflexivity.
  - intros info Hinfo Hplain. simpl in Hinfo. subst r.
    change {| _getexif := Ok info |} with (with_exif info).
    assert (Hm : exists m, get_exif_data TAGS GPSTAGS (with_exif info) = Ok m
                           /\ m !! KName "GPSInfo" = None).
    { destruct info as [items |]; [| by exists ∅].
      specialize (Hplain items eq_refl). rewrite get_exif_data_items.
      destruct (exif_loop_ok items ∅) as [m Hm].
      { eapply Forall_impl; [exact Hplain |]. intros it Hne Hname. by destruct Hne. }
      exists m. split; [exact Hm |].
      rewrite (exif_loop_frame items ∅ m _ Hm); [apply lookup_empty |].
      clear Hm. induction Hplain as [| it items Hne _ IH]; [apply not_elem_of_nil |].
      simpl. apply not_elem_of_cons. split; [congruence | exact IH]. }
    destruct Hm as (m & Hm & Hnone). exists m.
    split; [exact Hm |]. split; [exact Hnone |]. by apply get_lat_lon_absent.
Qed.

(** X5: in a result of [get_exif_data] the ["GPSInfo"] entry, when there
    is one, is a mapping, whatever the image held under that tag. *)
Theorem get_exif_data_gps_is_mapping (image : image) (m : gmap tagkey pyval) (v : pyval) :
  get_exif_data TAGS GPSTAGS image = Ok m ->
  m !! KName "GPSInfo" = Some v ->
  exists gps, v = PDict gps.
Proof.
  intros Hm Hv. destruct image as [[[items |] | e]]; [| | discriminate].
  - change {| _getexif := Ok (Some items) |} with (with_exif (Some items)) in Hm.
    rewrite get_exif_data_items in Hm.
    apply (exif_loop_gps_mapping items ∅ m); [| exact Hm | exact Hv].
    intros w Hw. by rewrite lookup_empty in Hw.
  - injection Hm as <-. by rewrite lookup_empty in Hv.
Qed.

(** X6: when the tags of the image get distinct names, every tag not named
    ["GPSInfo"] is in the result with its value, under the name [TAGS]
    gives it or, for a tag [TAGS] does not know, under its number. *)
Theorem get_exif_data_copies_tags (items : list (Z * rawval)) (m : gmap tagkey pyval)
    (tag : Z) (value : rawval) :
  NoDup (map (item_name TAGS) items) ->
  get_exif_data TAGS GPSTAGS (with_exif (Some items)) = Ok m ->
  (tag, value) ∈ items ->
  table_get TAGS tag <> KName "GPSInfo" ->
  m !! table_get TAGS tag = Some (to_pyval value)
  /\ (TAGS !! tag = None -> m !! KNum tag = Some (to_pyval value)).
Proof.
  intros Hnd Hm Hin Hne. rewrite get_exif_data_items in Hm.
  destruct (exif_loop_lookup items ∅ m (tag, value) Hnd Hm Hin) as (v & Hv & Hplain & _).
  unfold item_name in Hv, Hplain. cbn [fst snd] in Hv, Hplain.
  rewrite (Hplain Hne) in Hv. split; [exact Hv |].
  intros Hunknown. unfold table_get in Hv. by rewrite Hunknown in Hv.
Qed.

(** X7: when the tags get distinct names and the tag named ["GPSInfo"]
    holds a number or a text that is not empty, [get_exif_data] raises
    [TypeError]: nothing is returned for the other tags either. *)
Theorem get_exif_data_gps_not_a_directory (items : list (Z * rawval)) (g : Z)
    (value : rawval) :
  NoDup (map (item_name TAGS) items) ->
  (g, value) ∈ items ->
  table_get TAGS g = KName "GPSInfo" ->
  is_number value = true \/ (exists c s, value = RStr (String c s)) ->
  get_exif_data TAGS GPSTAGS (with_exif (Some items)) = Raise TypeError.
Proof.
  intros Hnd Hin Hname Hvalue. rewrite get_exif_data_items.
  destruct (list_elem_of_split _ _ Hin) as (pre & post & ->).
  rewrite for_each_app.
  destruct (exif_loop_ok pre ∅) as [m1 Hm1].
  { apply Forall_forall. intros it Hit Hitname. exfalso.
    rewrite map_app in Hnd. apply NoDup_app in Hnd as (_ & Hdisj & _).
    apply (Hdisj (item_name TAGS it)).
    - rewrite map_fmap. by apply list_elem_of_fmap_2.
    - simpl. rewrite Hitname. unfold item_name. simpl. rewrite Hname. left. }
  rewrite Hm1, bind_ok. simpl. rewrite Hname.
  rewrite bool_decide_eq_true_2 by reflexivity.
  destruct Hvalue as [Hnum | (c & s & ->)].
  - destruct value; try discriminate Hnum; reflexivity.
  - reflexivity.
Qed.

Section OneGpsDirectory.
(** An image whose tags get distinct names, one of them ["GPSInfo"] with a
    directory whose sub-tags get distinct names. *)
Variables (items : list (Z * rawval)) (g : Z) (ifd : list (Z * pyval)).
Hypothesis Hnames : NoDup (map (item_name TAGS) items).
Hypothesis Hg : (g, RIfd ifd) ∈ items.
Hypothesis Hgname : table_get TAGS g = KName "GPSInfo".
Hypothesis Hsub : NoDup (map (item_name GPSTAGS) ifd).

Lemma get_exif_data_gps_fold :
  exists m,
    get_exif_data TAGS GPSTAGS (with_exif (Some items)) = Ok m
    /\ m !! KName "GPSInfo"
       = Some (PDict (fold_left (fun d kv => <[item_name GPSTAGS kv := snd kv]> d) ifd ∅)).
Proof.
  rewrite get_exif_data_items.
  destruct (exif_loop_ok items ∅) as [m Hm].
  { apply Forall_forall. intros it Hit Hname.
    assert (it = (g, RIfd ifd)) as ->.
    { apply (NoDup_map_inj (item_name TAGS) items); try done.
      by rewrite Hname. }
    eexists. by apply gps_run_ifd. }
  exists m. split; [exact Hm |].
  destruct (exif_loop_lookup items ∅ m (g, RIfd ifd) Hnames Hm Hg) as (v & Hv & _ & Hgps).
  unfold item_name in Hv, Hgps. cbn [fst snd] in Hv, Hgps. rewrite Hgname in Hv.
  destruct (Hgps Hgname) as (tags & gps & Htags & Hloop & ->).
  rewrite Hv. do 2 f_equal.
  pose proof (gps_run_ifd ifd Hsub) as Hrun. rewrite Htags, bind_ok, Hloop in Hrun.
  by injection Hrun.
Qed.

(** X8: the sub-tags of the GPS directory are found in the ["GPSInfo"]
    mapping, each under the name [GPSTAGS] gives it, or under its number. *)
Theorem get_exif_data_gps_directory :
  exists m gps,
    get_exif_data TAGS GPSTAGS (with_exif (Some items)) = Ok m
    /\ m !! KName "GPSInfo" = Some (PDict gps)
    /\ (forall k v, (k, v) ∈ ifd -> gps !! table_get GPSTAGS k = Some v)
    /\ (forall key, key ∉ map (item_name GPSTAGS) ifd -> gps !! key = None).
Proof.
  destruct get_exif_data_gps_fold as (m & Hm & Hgps).
  exists m. eexists. split; [exact Hm |]. split; [exact Hgps |]. split.
  - intros k v Hkv.
    apply (fold_insert_lookup (item_name GPSTAGS) snd ifd ∅ (k, v) Hsub Hkv).
  - intros key Hkey.
    by rewrite (fold_insert_frame (item_name GPSTAGS) snd ifd ∅ key Hkey).
Qed.

(** X9: for such an image whose GPS directory has the four sub-tags that
    [GPSTAGS] names GPSLatitude, GPSLatitudeRef, GPSLongitude and
    GPSLongitudeRef, [get_lat_lon] on the result of [get_exif_data] is the
    conversion and sign of their four values: the two functions fit. *)
Theorem get_exif_data_then_get_lat_lon (k1 k2 k3 k4 : Z) (la lar lo lor : pyval) :
  (k1, la) ∈ ifd -> table_get GPSTAGS k1 = KName "GPSLatitude" ->
  (k2, lar) ∈ ifd -> table_get GPSTAGS k2 = KName "GPSLatitudeRef" ->
  (k3, lo) ∈ ifd -> table_get GPSTAGS k3 = KName "GPSLongitude" ->
  (k4, lor) ∈ ifd -> table_get GPSTAGS k4 = KName "GPSLongitudeRef" ->
  (get_exif_data TAGS GPSTAGS (with_exif (Some items)) ≫= get_lat_lon)
  = (lat ← convert_to_degrees la;
     lon ← convert_to_degrees lo;
     Ok (Some (hemisphere lar "N" lat), Some (hemisphere lor "E" lon))).
Proof.
  intros H1 N1 H2 N2 H3 N3 H4 N4.
  destruct get_exif_data_gps_fold as (m & Hm & Hgps). rewrite Hm, bind_ok.
  assert (Hread : forall k v, (k, v) ∈ ifd ->
            fold_left (fun d kv => <[item_name GPSTAGS kv := snd kv]> d) ifd
              (∅ : gmap tagkey pyval) !! table_get GPSTAGS k = Some v).
  { intros k v Hkv.
    apply (fold_insert_lookup (item_name GPSTAGS) snd ifd ∅ (k, v) Hsub Hkv). }
  apply (get_lat_lon_complete _ _ _ _ _ _ Hgps).
  - rewrite <- N1. by apply Hread.
  - rewrite <- N2. by apply Hread.
  - rewrite <- N3. by apply Hread.
  - rewrite <- N4. by apply Hread.
Qed.

(** X10: for such an image whose GPS directory has no sub-tag for one of
    the four required names, [download_and_process_file] prints the error
    line, for the [KeyError] of a required name the directory lacks, and
    not the line that nothing was found. *)
Theorem download_incomplete_gps (k : string) :
  In k required_keys ->
  KName k ∉ map (item_name GPSTAGS) ifd ->
  exists k',
    In k' required_keys
    /\ (KName k' ∉ map (item_name GPSTAGS) ifd)
    /\ download_and_process_file TAGS GPSTAGS (Image (with_exif (Some items)))
       = ErrorLine (PyError (KeyError (KName k'))).
Proof.
  intros Hk Hmissing.
  destruct get_exif_data_gps_fold as (m & Hm & Hgps).
  pose proof (fold_insert_frame (item_name GPSTAGS) snd ifd ∅ _ Hmissing) as Hnone.
  rewrite lookup_empty in Hnone.
  destruct (get_lat_lon_key_error _ _ k Hgps Hk Hnone) as (k' & Hk' & Hnone' & Herr).
  exists k'. split; [exact Hk' |]. split.
  - intros Hin. rewrite map_fmap in Hin.
    apply list_elem_of_fmap in Hin as (kv & Hname & Hkv).
    rewrite Hname in Hnone'.
    by rewrite (fold_insert_lookup (item_name GPSTAGS) snd ifd ∅ kv Hsub Hkv) in Hnone'.
  - unfold download_and_process_file. by rewrite Hm, bind_ok, Herr.
Qed.
End OneGpsDirectory.

(** X11: [download_and_process_file] prints that nothing was found exactly
    when the image was read and its tags, as [get_exif_data] returns them,
    have no ["GPSInfo"] entry. *)
Theorem download_prints_not_found (file : fetched) :
  download_and_process_file TAGS GPSTAGS file = Line "No latitude/longitude found"
  <-> exists image m,
      file = Image image
      /\ get_exif_data TAGS GPSTAGS image = Ok m
      /\ m !! KName "GPSInfo" = None.
Proof.
  split.
  - destruct file as [| image]; [discriminate |]. unfold download_and_process_file.
    destruct (get_exif_data TAGS GPSTAGS image) as [m |] eqn:Em; [| discriminate].
    rewrite bind_ok. intros H. exists image, m. split; [reflexivity |]. split; [exact Em |].
    destruct (m !! KName "GPSInfo") as [v |] eqn:Eg; [| reflexivity]. exfalso.
    destruct (get_lat_lon m) as [r |] eqn:Er; [| discriminate].
    destruct (get_lat_lon_present_pair m v r Eg Er) as (lat & lon & ->).
    simpl in H. discriminate.
  - intros (image & m & -> & Hm & Hnone). unfold download_and_process_file.
    by rewrite Hm, bind_ok, (get_lat_lon_absent _ Hnone).
Qed.
End GetExifData.

(** ** [verify_signature], seen from its caller *)

Lemma hex_lower (bs : bytes) :
  forallb is_lower_hex (list_ascii_of_string (HMAC.hex bs)) = true.
Proof.
  unfold HMAC.hex. rewrite list_ascii_of_string_of_list_ascii.
  induction bs as [| x bs IH]; [reflexivity |].
  cbn [flat_map app forallb]. rewrite IH. by destruct x.
Qed.

Lemma verify_signature_true (secret : option string) (payload : json)
    (signature : option string) :
  verify_signature secret payload signature = Ok true ->
  exists key, secret = Some key /\ signature = Some (correct_signature key payload).
Proof.
  destruct secret as [key |]; [| discriminate].
  destruct signature as [sig |]; [| discriminate].
  intros H. exists key. split; [reflexivity |].
  destruct (String.eqb_spec (correct_signature key payload) sig) as [-> | Hne];
    [reflexivity |].
  rewrite verify_signature_other in H by congruence. destruct (is_ascii sig); discriminate.
Qed.

(** X12: a signature is accepted only if it is 64 characters long and made
    of the digits and the lower-case letters a to f: the same digest in
    upper case, or with a prefix, is not. *)
Theorem verify_signature_accepted_format (secret : option string) (payload : json)
    (signature : option string) :
  verify_signature secret payload signature = Ok true ->
  exists sig,
    signature = Some sig
    /\ length (list_ascii_of_string sig) = 64%nat
    /\ forallb is_lower_hex (list_ascii_of_string sig) = true.
Proof.
  intros H. destruct (verify_signature_true _ _ _ H) as (key & -> & ->).
  exists (correct_signature key payload). split; [reflexivity |].
  split; [apply correct_signature_length | apply hex_lower].
Qed.

Lemma verify_signature_accepted_format_witness :
  verify_signature (Some "secret") empty_events
    (Some "afce24afed3ddd592af8517e77cb8d077d098e769b4f9d32a8346866a78012f0") = Ok true
  /\ verify_signature (Some "secret") empty_events
       (Some "AFCE24AFED3DDD592AF8517E77CB8D077D098E769B4F9D32A8346866A78012F0") = Ok false
  /\ exists sig,
      Some "afce24afed3ddd592af8517e77cb8d077d098e769b4f9d32a8346866a78012f0" = Some sig
      /\ length (list_ascii_of_string sig) = 64%nat
      /\ forallb is_lower_hex (list_ascii_of_string sig) = true.
Proof.
  assert (E : verify_signature (Some "secret") empty_events
                (Some "afce24afed3ddd592af8517e77cb8d077d098e769b4f9d32a8346866a78012f0")
              = Ok true) by (vm_compute; reflexivity).
  split; [exact E |]. split; [vm_compute; reflexivity |].
  exact (verify_signature_accepted_format _ _ _ E).
Defined.

(** X13: the payload enters the check through its text [str(payload)]
    alone: two payloads with the same text, such as an object and the JSON
    string that spells its text, are accepted with the same signatures. *)
Theorem verify_signature_reads_text_only (secret : option string) (payload1 payload2 : json)
    (signature : option string) :
  py_str payload1 = py_str payload2 ->
  verify_signature secret payload1 signature = verify_signature secret payload2 signature.
Proof.
  intros H. destruct secret as [key |]; [| reflexivity].
  rewrite !verify_signature_set. unfold correct_signature. by rewrite H.
Qed.

Lemma verify_signature_reads_text_only_witness :
  py_str (JStr "{'events': []}") = py_str empty_events
  /\ JStr "{'events': []}" <> empty_events
  /\ verify_signature (Some "secret") (JStr "{'events': []}")
       (Some "afce24afed3ddd592af8517e77cb8d077d098e769b4f9d32a8346866a78012f0")
     = verify_signature (Some "secret") empty_events
         (Some "afce24afed3ddd592af8517e77cb8d077d098e769b4f9d32a8346866a78012f0").
Proof.
  split; [reflexivity |]. split; [discriminate |].
  apply verify_signature_reads_text_only. reflexivity.
Defined.

(** ** [handle_box_webhook] *)

Lemma handle_event_kind (event : json) (r : option string) :
  event_kind event r -> handle_event event = Ok r.
Proof.
  intros [source file_id Ht Hs Hi | event_type Ht Hne]; unfold handle_event.
  - rewrite Ht, bind_ok. simpl. by rewrite Hs, bind_ok, Hi, bind_ok.
  - rewrite Ht, bind_ok.
    destruct event_type as [| | | | t | |]; try reflexivity.
    simpl. destruct (String.eqb_spec t "UPLOAD") as [-> | _]; [by destruct Hne | reflexivity].
Qed.

Lemma handle_events_kinds (events : list json) (rs : list (option string))
    (urls : list string) :
  Forall2 event_kind events rs ->
  handle_events events urls = ((urls ++ omap id rs)%list, Done).
Proof.
  intros H. revert urls. induction H as [| event r events rs Hk _ IH]; intros urls.
  - simpl. by rewrite app_nil_r.
  - simpl. rewrite (handle_event_kind _ _ Hk). destruct r as [url |]; simpl.
    + rewrite IH. by rewrite <- app_assoc.
    + apply IH.
Qed.

Lemma handle_events_stop (good rest : list json) (bad : json) (rs : list (option string))
    (e : exn) (urls : list string) :
  Forall2 event_kind good rs ->
  handle_event bad = Raise e ->
  handle_events (good ++ bad :: rest) urls = ((urls ++ omap id rs)%list, Crashed e).
Proof.
  intros H Hbad. revert urls. induction H as [| event r events rs Hk _ IH]; intros urls.
  - simpl. by rewrite Hbad, app_nil_r.
  - simpl. rewrite (handle_event_kind _ _ Hk). destruct r as [url |]; simpl.
    + rewrite IH. by rewrite <- app_assoc.
    + apply IH.
Qed.

(** X14: a download is made, or the success body returned, only for a
    request whose signature is the correct one for its payload under a
    secret that is set. *)
Theorem webhook_acts_only_when_signed (secret : option string) (payload : json)
    (signature : option string) (urls : list string) (out : outcome) :
  handle_box_webhook secret payload signature = (urls, out) ->
  urls <> [] \/ out = Done ->
  exists key, secret = Some key /\ signature = Some (correct_signature key payload).
Proof.
  unfold handle_box_webhook. intros H Hacts.
  destruct (verify_signature secret payload signature) as [[|] | e] eqn:Ev.
  - by apply verify_signature_true.
  - injection H as <- <-. destruct Hacts as [Hu | Ho]; [by destruct Hu | discriminate].
  - injection H as <- <-. destruct Hacts as [Hu | Ho]; [by destruct Hu | discriminate].
Qed.

Lemma webhook_acts_only_when_signed_witness :
  handle_box_webhook (Some "secret") two_events (Some (correct_signature "secret" two_events))
  = (["https://api.box.com/2.0/files/123/content"], Done)
  /\ (["https://api.box.com/2.0/files/123/content"] <> [] \/ Done = Done)
  /\ exists key,
      Some "secret" = Some key
      /\ Some (correct_signature "secret" two_events) = Some (correct_signature key two_events).
Proof.
  assert (E : handle_box_webhook (Some "secret") two_events
                (Some (correct_signature "secret" two_events))
              = (["https://api.box.com/2.0/files/123/content"], Done))
    by (vm_compute; reflexivity).
  split; [exact E |]. split; [by right |].
  apply (webhook_acts_only_when_signed _ _ _ _ _ E). by right.
Defined.

(** X15: for a secret and a body whose text is within Latin-1, the texts
    of this model: with the secret set, an ASCII signature that is not the
    correct one is answered 401, and nothing is downloaded. A signature
    with a character outside ASCII, a missing signature header and an unset
    secret are not answered 401: the request ends in an uncaught
    [TypeError], [TypeError] and [AttributeError]. *)
Theorem webhook_rejections (payload : json) :
  (forall key sig,
      is_ascii sig = true -> sig <> correct_signature key payload ->
      handle_box_webhook (Some key) payload (Some sig) = ([], Unauthorized))
  /\ (forall key sig,
         is_ascii sig = false ->
         handle_box_webhook (Some key) payload (Some sig) = ([], Crashed TypeError))
  /\ (forall key, handle_box_webhook (Some key) payload None = ([], Crashed TypeError))
  /\ (forall signature,
         handle_box_webhook None payload signature = ([], Crashed AttributeError)).
Proof.
  unfold handle_box_webhook. repeat split.
  - intros key sig Ha Hne. by rewrite (verify_signature_other key payload sig Hne), Ha.
  - intros key sig Ha. by rewrite (verify_signature_not_ascii key payload sig Ha).
Qed.

Lemma webhook_rejections_witness :
  is_ascii "sha256=afce" = true
  /\ "sha256=afce" <> correct_signature "secret" two_events
  /\ handle_box_webhook (Some "secret") two_events (Some "sha256=afce") = ([], Unauthorized).
Proof.
  assert (Hne : "sha256=afce" <> correct_signature "secret" two_events)
    by (vm_compute; discriminate).
  split; [reflexivity |]. split; [exact Hne |].
  apply (proj1 (webhook_rejections two_events)); [reflexivity | exact Hne].
Defined.

Section SignedRequest.
(** A request whose signature is correct under the secret. *)
Variables (key : string) (payload : json).

Lemma webhook_signed :
  handle_box_webhook (Some key) payload (Some (correct_signature key payload))
  = match json_getitem payload "events" ≫= json_iter with
    | Raise e => ([], Crashed e)
    | Ok events => handle_events events []
    end.
Proof. unfold handle_box_webhook. by rewrite verify_signature_correct. Qed.

(** X16: when the events of a signed request are well formed, the files of
    its ["UPLOAD"] events, and no others, are downloaded, in the order of
    the events, and the request succeeds. The type is compared as it is
    written: an event of type ["upload"] is passed over. *)
Theorem webhook_downloads_uploads (events : list json) (rs : list (option string)) :
  json_getitem payload "events" = Ok (JList events) ->
  Forall2 event_kind events rs ->
  handle_box_webhook (Some key) payload (Some (correct_signature key payload))
  = (omap id rs, Done).
Proof.
  intros He Hk. rewrite webhook_signed, He, bind_ok. simpl.
  by rewrite (handle_events_kinds events rs [] Hk).
Qed.

(** X17: an event the loop cannot handle ends the request with its
    exception after the downloads for the events before it have been made;
    the events after it are not looked at. *)
Theorem webhook_stops_at_bad_event (good rest : list json) (bad : json)
    (rs : list (option string)) (e : exn) :
  json_getitem payload "events" = Ok (JList (good ++ bad :: rest)) ->
  Forall2 event_kind good rs ->
  handle_event bad = Raise e ->
  handle_box_webhook (Some key) payload (Some (correct_signature key payload))
  = (omap id rs, Crashed e).
Proof.
  intros He Hk Hbad. rewrite webhook_signed, He, bind_ok. simpl.
  by rewrite (handle_events_stop good rest bad rs e [] Hk Hbad).
Qed.

(** X18: a signed request whose body is no object, or an object whose
    ["events"] is null, a boolean or a number, ends in [TypeError]; an
    object without ["events"] ends in [KeyError]; an ["events"] with
    nothing in it, be it a list, an object or a text, succeeds. Nothing is
    downloaded in any of these cases. *)
Theorem webhook_body_shapes :
  ((forall items, payload <> JDict items) ->
   handle_box_webhook (Some key) payload (Some (correct_signature key payload))
   = ([], Crashed TypeError))
  /\ (forall items,
         payload = JDict items ->
         find (fun kv => String.eqb (fst kv) "events") items = None ->
         handle_box_webhook (Some key) payload (Some (correct_signature key payload))
         = ([], Crashed (KeyError (KName "events"))))
  /\ (forall v,
         json_getitem payload "events" = Ok v ->
         json_iter v = Raise TypeError ->
         handle_box_webhook (Some key) payload (Some (correct_signature key payload))
         = ([], Crashed TypeError))
  /\ (forall v,
         json_getitem payload "events" = Ok v ->
         v = JList [] \/ v = JDict [] \/ v = JStr "" ->
         handle_box_webhook (Some key) payload (Some (correct_signature key payload))
         = ([], Done)).
Proof.
  rewrite webhook_signed. repeat split.
  - intros Hshape. destruct payload; try reflexivity. by destruct (Hshape items).
  - intros items Hp Hfind. rewrite Hp. simpl. by rewrite Hfind.
  - intros v Hv Hiter. by rewrite Hv, bind_ok, Hiter.
  - intros v Hv Hempty. rewrite Hv, bind_ok.
    by destruct Hempty as [-> | [-> | ->]].
Qed.
End SignedRequest.

(** ** The properties above on the sample image and the sample requests *)

Lemma get_exif_data_without_gps_witness :
  get_exif_data TAGS_excerpt GPSTAGS_excerpt {| _getexif := Raise AttributeError |}
  = Raise AttributeError
  /\ (forall items,
        Some [(271, RStr "Canon")] = Some items ->
        Forall (fun it => item_name TAGS_excerpt it <> KName "GPSInfo") items)
  /\ exists m,
      get_exif_data TAGS_excerpt GPSTAGS_excerpt (with_exif (Some [(271, RStr "Canon")])) = Ok m
      /\ m !! KName "GPSInfo" = None
      /\ get_lat_lon m = Ok (None, None).
Proof.
  assert (H : forall items,
             Some [(271, RStr "Canon")] = Some items ->
             Forall (fun it => item_name TAGS_excerpt it <> KName "GPSInfo") items).
  { intros items [= <-]. repeat constructor. discriminate. }
  split; [| split; [exact H |]].
  - exact (proj1 (get_exif_data_without_gps TAGS_excerpt GPSTAGS_excerpt
                    {| _getexif := Raise AttributeError |}) AttributeError eq_refl).
  - exact (proj2 (get_exif_data_without_gps TAGS_excerpt GPSTAGS_excerpt
                    (with_exif (Some [(271, RStr "Canon")]))) _ eq_refl H).
Defined.

Lemma get_exif_data_gps_is_mapping_witness :
  get_exif_data TAGS_excerpt GPSTAGS_excerpt (with_exif (Some sample_info)) = Ok sample_tags
  /\ sample_tags !! KName "GPSInfo" = Some (PDict (sample_gps (PStr "N") (PStr "W")))
  /\ exists gps, PDict (sample_gps (PStr "N") (PStr "W")) = PDict gps.
Proof.
  assert (E : get_exif_data TAGS_excerpt GPSTAGS_excerpt (with_exif (Some sample_info)) = Ok sample_tags)
    by (vm_compute; reflexivity).
  split; [exact E |]. split; [reflexivity |].
  apply (get_exif_data_gps_is_mapping TAGS_excerpt GPSTAGS_excerpt _ _ _ E). reflexivity.
Defined.

Lemma get_exif_data_copies_tags_witness :
  NoDup (map (item_name TAGS_excerpt) sample_info)
  /\ get_exif_data TAGS_excerpt GPSTAGS_excerpt (with_exif (Some sample_info)) = Ok sample_tags
  /\ (59932, RBytes []) ∈ sample_info
  /\ table_get TAGS_excerpt 59932 <> KName "GPSInfo"
  /\ sample_tags !! table_get TAGS_excerpt 59932 = Some (to_pyval (RBytes []))
  /\ (TAGS_excerpt !! 59932 = None -> sample_tags !! KNum 59932 = Some (to_pyval (RBytes []))).
Proof.
  assert (Hnd : NoDup (map (item_name TAGS_excerpt) sample_info)) by compute_done.
  assert (E : get_exif_data TAGS_excerpt GPSTAGS_excerpt (with_exif (Some sample_info)) = Ok sample_tags)
    by (vm_compute; reflexivity).
  assert (Hin : (59932, RBytes []) ∈ sample_info) by repeat constructor.
  assert (Hne : table_get TAGS_excerpt 59932 <> KName "GPSInfo") by discriminate.
  split; [exact Hnd |]. split; [exact E |]. split; [exact Hin |]. split; [exact Hne |].
  exact (get_exif_data_copies_tags TAGS_excerpt GPSTAGS_excerpt _ _ _ _ Hnd E Hin Hne).
Defined.

Lemma get_exif_data_gps_directory_witness :
  NoDup (map (item_name TAGS_excerpt) sample_info)
  /\ (34853, RIfd sample_ifd) ∈ sample_info
  /\ table_get TAGS_excerpt 34853 = KName "GPSInfo"
  /\ NoDup (map (item_name GPSTAGS_excerpt) sample_ifd)
  /\ exists m gps,
      get_exif_data TAGS_excerpt GPSTAGS_excerpt (with_exif (Some sample_info)) = Ok m
      /\ m !! KName "GPSInfo" = Some (PDict gps)
      /\ (forall k v, (k, v) ∈ sample_ifd -> gps !! table_get GPSTAGS_excerpt k = Some v)
      /\ (forall key, key ∉ map (item_name GPSTAGS_excerpt) sample_ifd -> gps !! key = None).
Proof.
  assert (Hnd : NoDup (map (item_name TAGS_excerpt) sample_info)) by compute_done.
  assert (Hin : (34853, RIfd sample_ifd) ∈ sample_info) by repeat constructor.
  assert (Hsub : NoDup (map (item_name GPSTAGS_excerpt) sample_ifd)) by compute_done.
  split; [exact Hnd |]. split; [exact Hin |]. split; [reflexivity |]. split; [exact Hsub |].
  exact (get_exif_data_gps_directory TAGS_excerpt GPSTAGS_excerpt _ _ _
           Hnd Hin eq_refl Hsub).
Defined.

Lemma get_exif_data_then_get_lat_lon_witness :
  NoDup (map (item_name TAGS_excerpt) sample_info)
  /\ NoDup (map (item_name GPSTAGS_excerpt) sample_ifd)
  /\ (get_exif_data TAGS_excerpt GPSTAGS_excerpt (with_exif (Some sample_info)) ≫= get_lat_lon)
     = (lat ← convert_to_degrees (PSeq [PInt 40; PInt 44; PFloat f54_36]);
        lon ← convert_to_degrees (PSeq [PInt 73; PInt 59; PFloat f8_76]);
        Ok (Some (hemisphere (PStr "N") "N" lat), Some (hemisphere (PStr "W") "E" lon))).
Proof.
  assert (Hnd : NoDup (map (item_name TAGS_excerpt) sample_info)) by compute_done.
  assert (Hin : (34853, RIfd sample_ifd) ∈ sample_info) by repeat constructor.
  assert (Hsub : NoDup (map (item_name GPSTAGS_excerpt) sample_ifd)) by compute_done.
  split; [exact Hnd |]. split; [exact Hsub |].
  apply (get_exif_data_then_get_lat_lon TAGS_excerpt GPSTAGS_excerpt _ 34853 sample_ifd
           Hnd Hin eq_refl Hsub 2 1 4 3);
    solve [reflexivity | repeat constructor].
Defined.

Lemma get_exif_data_gps_not_a_directory_witness :
  NoDup (map (item_name TAGS_excerpt) [(271, RStr "Canon"); (34853, RInt 5)])
  /\ (34853, RInt 5) ∈ [(271, RStr "Canon"); (34853, RInt 5)]
  /\ (is_number (RInt 5) = true \/ exists c s, RInt 5 = RStr (String c s))
  /\ get_exif_data TAGS_excerpt GPSTAGS_excerpt (with_exif (Some [(271, RStr "Canon"); (34853, RInt 5)]))
     = Raise TypeError.
Proof.
  assert (Hnd : NoDup (map (item_name TAGS_excerpt) [(271, RStr "Canon"); (34853, RInt 5)]))
    by compute_done.
  assert (Hin : (34853, RInt 5) ∈ [(271, RStr "Canon"); (34853, RInt 5)])
    by repeat constructor.
  split; [exact Hnd |]. split; [exact Hin |]. split; [by left |].
  apply (get_exif_data_gps_not_a_directory TAGS_excerpt GPSTAGS_excerpt _ 34853 (RInt 5)
           Hnd Hin eq_refl). by left.
Defined.

Lemma download_prints_not_found_witness :
  (exists image m,
      Image (with_exif None) = Image image
      /\ get_exif_data TAGS_excerpt GPSTAGS_excerpt image = Ok m
      /\ m !! KName "GPSInfo" = None)
  /\ download_and_process_file TAGS_excerpt GPSTAGS_excerpt (Image (with_exif None))
     = Line "No latitude/longitude found".
Proof.
  assert (H : exists image m,
             Image (with_exif None) = Image image
             /\ get_exif_data TAGS_excerpt GPSTAGS_excerpt image = Ok m
             /\ m !! KName "GPSInfo" = None).
  { exists (with_exif None), ∅. repeat split. }
  split; [exact H |].
  exact (proj2 (download_prints_not_found TAGS_excerpt GPSTAGS_excerpt (Image (with_exif None))) H).
Defined.

Lemma download_incomplete_gps_witness :
  In "GPSLongitude" required_keys
  /\ (KName "GPSLongitude" ∉ map (item_name GPSTAGS_excerpt) short_ifd)
  /\ exists k',
      In k' required_keys
      /\ (KName k' ∉ map (item_name GPSTAGS_excerpt) short_ifd)
      /\ download_and_process_file TAGS_excerpt GPSTAGS_excerpt (Image (with_exif (Some short_info)))
         = ErrorLine (PyError (KeyError (KName k'))).
Proof.
  assert (Hnd : NoDup (map (item_name TAGS_excerpt) short_info)) by compute_done.
  assert (Hin : (34853, RIfd short_ifd) ∈ short_info) by repeat constructor.
  assert (Hsub : NoDup (map (item_name GPSTAGS_excerpt) short_ifd)) by compute_done.
  assert (Hk : In "GPSLongitude" required_keys) by (simpl; tauto).
  assert (Hmiss : KName "GPSLongitude" ∉ map (item_name GPSTAGS_excerpt) short_ifd)
    by compute_done.
  split; [exact Hk |]. split; [exact Hmiss |].
  exact (download_incomplete_gps TAGS_excerpt GPSTAGS_excerpt short_info 34853 short_ifd
           Hnd Hin eq_refl Hsub "GPSLongitude" Hk Hmiss).
Defined.

Lemma webhook_downloads_uploads_witness :
  json_getitem two_events "events" = Ok (JList [lower_case_event; upload_123])
  /\ Forall2 event_kind [lower_case_event; upload_123]
       [None; Some "https://api.box.com/2.0/files/123/content"]
  /\ handle_box_webhook (Some "secret") two_events
       (Some (correct_signature "secret" two_events))
     = ([ "https://api.box.com/2.0/files/123/content" ], Done).
Proof.
  assert (Hk : Forall2 event_kind [lower_case_event; upload_123]
                 [None; Some "https://api.box.com/2.0/files/123/content"]).
  { constructor; [apply (other_event _ (JStr "upload")); [reflexivity | discriminate] |].
    constructor; [| constructor].
    apply (upload_event _ (JDict [("type", JStr "file"); ("id", JStr "123")]) (JStr "123"));
      reflexivity. }
  split; [reflexivity |]. split; [exact Hk |].
  exact (webhook_downloads_uploads "secret" two_events _ _ eq_refl Hk).
Defined.

Lemma webhook_stops_at_bad_event_witness :
  json_getitem broken_events "events"
  = Ok (JList ([upload_123] ++ JDict [("source", JNull)] :: [upload_123]))
  /\ Forall2 event_kind [upload_123] [Some "https://api.box.com/2.0/files/123/content"]
  /\ handle_event (JDict [("source", JNull)]) = Raise (KeyError (KName "event_type"))
  /\ handle_box_webhook (Some "secret") broken_events
       (Some (correct_signature "secret" broken_events))
     = ([ "https://api.box.com/2.0/files/123/content" ],
        Crashed (KeyError (KName "event_type"))).
Proof.
  assert (Hk : Forall2 event_kind [upload_123]
                 [Some "https://api.box.com/2.0/files/123/content"]).
  { constructor; [| constructor].
    apply (upload_event _ (JDict [("type", JStr "file"); ("id", JStr "123")]) (JStr "123"));
      reflexivity. }
  split; [reflexivity |]. split; [exact Hk |]. split; [reflexivity |].
  exact (webhook_stops_at_bad_event "secret" broken_events [upload_123] [upload_123]
           (JDict [("source", JNull)]) _ _ eq_refl Hk eq_refl).
Defined.

Lemma webhook_body_shapes_witness :
  (forall items, JList [] <> JDict items)
  /\ handle_box_webhook (Some "secret") (JList []) (Some (correct_signature "secret" (JList [])))
     = ([], Crashed TypeError)
  /\ json_getitem (JDict [("events", JDict [])]) "events" = Ok (JDict [])
  /\ handle_box_webhook (Some "secret") (JDict [("events", JDict [])])
       (Some (correct_signature "secret" (JDict [("events", JDict [])])))
     = ([], Done).
Proof.
  split; [discriminate |].
  split; [apply (proj1 (webhook_body_shapes "secret" (JList []))); discriminate |].
  split; [reflexivity |].
  apply (proj2 (proj2 (proj2 (webhook_body_shapes "secret" (JDict [("events", JDict [])]))))
           (JDict [])); [reflexivity | tauto].
Defined.
